(** * ESP32 robot motion control: a shallow embedding of
      [examples/esp32_robot_control.cpp] and its verified properties.

    The firmware keeps one global [RobotStatus], drives four direction pins
    and two PWM channels, and reads the millisecond clock.  The embedding
    threads a [World] value that holds the global status, the clock, the
    analog input and the chronological record of everything written to the
    pins, the PWM channels, the web socket and the serial port. *)

From Stdlib Require Import ZArith List String Bool Lia.
From Stdlib Require Import Floats.SpecFloat.
Import ListNotations.
Local Open Scope string_scope.
Local Open Scope list_scope.
Local Open Scope Z_scope.

(** ** Machine numbers of the ESP32 (32-bit [unsigned long], IEEE binary32
       [float]) *)

Module Machine.

(** [unsigned long] arithmetic is modulo 2^32. *)
Definition ulong (z : Z) : Z := z mod 2 ^ 32.

(** [float] is IEEE 754 binary32: 24 bits of precision, emax = 128. *)
Definition float : Set := spec_float.
Definition prec : Z := 24.
Definition emax : Z := 128.

Definition fmul : float -> float -> float := SFmul prec emax.

(** Conversion of an integer constant to [float] (exact for 1000). *)
Definition float_of_int (z : Z) : float := binary_normalize prec emax z 0 false.

(** A dyadic literal [m * 2^e], rounded to binary32. *)
Definition float_lit (m e : Z) : float := binary_normalize prec emax m e false.

(** Magnitude of a finite float truncated toward zero. *)
Definition trunc_mag (m : positive) (e : Z) : Z :=
  if 0 <=? e then Zpos m * 2 ^ e else Zpos m / 2 ^ (- e).

(** [float] to [unsigned long]: the fractional part is discarded; the
    conversion is undefined ([None]) when the truncated value is not
    representable (negative, too large, infinite or NaN). *)
Definition float_to_ulong (f : float) : option Z :=
  match f with
  | S754_zero _ => Some 0
  | S754_finite s m e =>
      let mag := trunc_mag m e in
      if mag =? 0 then Some 0
      else if s then None
      else if mag <? 2 ^ 32 then Some mag else None
  | S754_infinity _ | S754_nan => None
  end.

(** The comparisons [f <= 0] and [0 < f] on floats. *)
Definition fzero : float := S754_zero false.
Definition fle0 (f : float) : bool := SFleb f fzero.
Definition fgt0 (f : float) : bool := SFltb fzero f.

End Machine.
Import Machine.

(** ** The Arduino core functions the sketch calls *)

Module Arduino.

(** Modelled from the spec: the Arduino core's [map(x, in_min, in_max,
    out_min, out_max)], which the sketch calls and which is not part of the
    sources.  The specification describes the call as scaling [x] linearly
    from the input range to the output range, rounding toward nearest; a
    tie is rounded upward here. *)
Definition map (x in_min in_max out_min out_max : Z) : Z :=
  (2 * ((x - in_min) * (out_max - out_min)) + (in_max - in_min))
  / (2 * (in_max - in_min))
  + out_min.

(** [constrain(amt, low, high)]. *)
Definition constrain (amt low high : Z) : Z :=
  if amt <? low then low else if high <? amt then high else amt.

Definition HIGH : bool := true.
Definition LOW : bool := false.

End Arduino.

(** ** Pins *)

Definition MOTOR_LEFT_FORWARD : Z := 2.
Definition MOTOR_LEFT_BACKWARD : Z := 4.
Definition MOTOR_RIGHT_FORWARD : Z := 16.
Definition MOTOR_RIGHT_BACKWARD : Z := 17.
Definition MOTOR_LEFT_PWM : Z := 5.
Definition MOTOR_RIGHT_PWM : Z := 18.

(** ** The global robot status *)

Record RobotStatus : Set := mkRobotStatus {
  isMoving : bool;
  currentDirection : string;
  currentSpeed : Z;
  moveStartTime : Z;
  moveDuration : Z
}.

(** The structure's default member initialisers. *)
Definition initialStatus : RobotStatus :=
  {| isMoving := false; currentDirection := "stop"; currentSpeed := 0;
     moveStartTime := 0; moveDuration := 0 |}.

(** ** Everything the sketch writes to the outside *)

(** The payload of a [robot_status] message. *)
Record StatusData : Set := mkStatusData {
  data_isMoving : bool;
  data_direction : string;
  data_speed : Z;
  data_battery : Z
}.

(** Signals to the motor driver and messages to the server. *)
Inductive Output : Set :=
| DigitalWrite (pin : Z) (level : bool)
| LedcWrite (channel : Z) (duty : Z)
| SendTXT (data : StatusData).

(** Lines printed on the serial port, kept structured. *)
Inductive LogLine : Set :=
| LogForward (speed : Z)
| LogBackward (speed : Z)
| LogLeft (speed : Z)
| LogRight (speed : Z)
| LogStartMove (direction : string) (duration : float) (speed : Z)
| LogMoveDone
| LogMissingCommand
| LogSequenceStart
| LogSequenceStep (direction : string) (duration : float)
| LogStatusSent
| LogJsonError
| LogReceived
| LogInitialized.

Record World : Set := mkWorld {
  robotStatus : RobotStatus;
  clock : Z;                 (* milliseconds since boot *)
  analogA0 : Z;              (* what [analogRead(A0)] returns *)
  outputs : list Output;     (* oldest first *)
  serial : list LogLine      (* oldest first *)
}.

Definition initialWorld : World :=
  {| robotStatus := initialStatus; clock := 0; analogA0 := 0;
     outputs := []; serial := [] |}.

(** *** Primitive effects *)

Definition setStatus (f : RobotStatus -> RobotStatus) (w : World) : World :=
  {| robotStatus := f (robotStatus w); clock := clock w; analogA0 := analogA0 w;
     outputs := outputs w; serial := serial w |}.

Definition emit (o : Output) (w : World) : World :=
  {| robotStatus := robotStatus w; clock := clock w; analogA0 := analogA0 w;
     outputs := outputs w ++ [o]; serial := serial w |}.

Definition println (l : LogLine) (w : World) : World :=
  {| robotStatus := robotStatus w; clock := clock w; analogA0 := analogA0 w;
     outputs := outputs w; serial := serial w ++ [l] |}.

Definition digitalWrite (pin : Z) (level : bool) : World -> World :=
  emit (DigitalWrite pin level).

(** [ledcWrite(uint8_t channel, uint32_t duty)]. *)
Definition ledcWrite (channel duty : Z) : World -> World :=
  emit (LedcWrite channel (ulong duty)).

(** [millis()]: the clock as an [unsigned long]. *)
Definition millis (w : World) : Z := ulong (clock w).

(** [delay(ms)]: time passes. *)
Definition delay (ms : Z) (w : World) : World :=
  {| robotStatus := robotStatus w; clock := clock w + ms; analogA0 := analogA0 w;
     outputs := outputs w; serial := serial w |}.

Definition set_isMoving (b : bool) (s : RobotStatus) : RobotStatus :=
  {| isMoving := b; currentDirection := currentDirection s;
     currentSpeed := currentSpeed s; moveStartTime := moveStartTime s;
     moveDuration := moveDuration s |}.

Definition set_currentDirection (d : string) (s : RobotStatus) : RobotStatus :=
  {| isMoving := isMoving s; currentDirection := d;
     currentSpeed := currentSpeed s; moveStartTime := moveStartTime s;
     moveDuration := moveDuration s |}.

Definition set_currentSpeed (v : Z) (s : RobotStatus) : RobotStatus :=
  {| isMoving := isMoving s; currentDirection := currentDirection s;
     currentSpeed := v; moveStartTime := moveStartTime s;
     moveDuration := moveDuration s |}.

Definition set_moveStartTime (t : Z) (s : RobotStatus) : RobotStatus :=
  {| isMoving := isMoving s; currentDirection := currentDirection s;
     currentSpeed := currentSpeed s; moveStartTime := t;
     moveDuration := moveDuration s |}.

Definition set_moveDuration (t : Z) (s : RobotStatus) : RobotStatus :=
  {| isMoving := isMoving s; currentDirection := currentDirection s;
     currentSpeed := currentSpeed s; moveStartTime := moveStartTime s;
     moveDuration := t |}.

(** Sequencing of statements, first statement first. *)
Definition seq {A B C : Type} (f : A -> B) (g : B -> C) : A -> C :=
  fun x => g (f x).
Infix ";;" := seq (at level 61, left associativity).

(** ** The motor operations *)

(** [stopRobot()] *)
Definition stopRobot : World -> World :=
  digitalWrite MOTOR_LEFT_FORWARD Arduino.LOW ;;
  digitalWrite MOTOR_LEFT_BACKWARD Arduino.LOW ;;
  digitalWrite MOTOR_RIGHT_FORWARD Arduino.LOW ;;
  digitalWrite MOTOR_RIGHT_BACKWARD Arduino.LOW ;;
  ledcWrite 0 0 ;;
  ledcWrite 1 0 ;;
  setStatus (set_isMoving false) ;;
  setStatus (set_currentDirection "stop") ;;
  setStatus (set_currentSpeed 0).

(** The value every move operation computes for both PWM channels:
    [int pwmValue = map(speed, 0, 100, 0, 255)]. *)
Definition pwmValue (speed : Z) : Z := Arduino.map speed 0 100 0 255.

(** [moveForward(speed)] *)
Definition moveForward (speed : Z) : World -> World :=
  digitalWrite MOTOR_LEFT_FORWARD Arduino.HIGH ;;
  digitalWrite MOTOR_LEFT_BACKWARD Arduino.LOW ;;
  digitalWrite MOTOR_RIGHT_FORWARD Arduino.HIGH ;;
  digitalWrite MOTOR_RIGHT_BACKWARD Arduino.LOW ;;
  ledcWrite 0 (pwmValue speed) ;;
  ledcWrite 1 (pwmValue speed) ;;
  setStatus (set_currentDirection "forward") ;;
  setStatus (set_currentSpeed speed) ;;
  println (LogForward speed).

(** [moveBackward(speed)] *)
Definition moveBackward (speed : Z) : World -> World :=
  digitalWrite MOTOR_LEFT_FORWARD Arduino.LOW ;;
  digitalWrite MOTOR_LEFT_BACKWARD Arduino.HIGH ;;
  digitalWrite MOTOR_RIGHT_FORWARD Arduino.LOW ;;
  digitalWrite MOTOR_RIGHT_BACKWARD Arduino.HIGH ;;
  ledcWrite 0 (pwmValue speed) ;;
  ledcWrite 1 (pwmValue speed) ;;
  setStatus (set_currentDirection "backward") ;;
  setStatus (set_currentSpeed speed) ;;
  println (LogBackward speed).

(** [turnLeft(speed)] *)
Definition turnLeft (speed : Z) : World -> World :=
  digitalWrite MOTOR_LEFT_FORWARD Arduino.LOW ;;
  digitalWrite MOTOR_LEFT_BACKWARD Arduino.HIGH ;;
  digitalWrite MOTOR_RIGHT_FORWARD Arduino.HIGH ;;
  digitalWrite MOTOR_RIGHT_BACKWARD Arduino.LOW ;;
  ledcWrite 0 (pwmValue speed) ;;
  ledcWrite 1 (pwmValue speed) ;;
  setStatus (set_currentDirection "left") ;;
  setStatus (set_currentSpeed speed) ;;
  println (LogLeft speed).

(** [turnRight(speed)] *)
Definition turnRight (speed : Z) : World -> World :=
  digitalWrite MOTOR_LEFT_FORWARD Arduino.HIGH ;;
  digitalWrite MOTOR_LEFT_BACKWARD Arduino.LOW ;;
  digitalWrite MOTOR_RIGHT_FORWARD Arduino.LOW ;;
  digitalWrite MOTOR_RIGHT_BACKWARD Arduino.HIGH ;;
  ledcWrite 0 (pwmValue speed) ;;
  ledcWrite 1 (pwmValue speed) ;;
  setStatus (set_currentDirection "right") ;;
  setStatus (set_currentSpeed speed) ;;
  println (LogRight speed).

(** ** Executing and supervising a move *)

(** The number of milliseconds stored by
    [robotStatus.moveDuration = duration * 1000]: the product is a [float],
    converted to [unsigned long] by the assignment. *)
Definition duration_ms (duration : float) : option Z :=
  float_to_ulong (fmul duration (float_of_int 1000)).

(** [executeRobotMove(direction, duration, speed)].  The result is [None]
    when the conversion of [duration * 1000] is undefined. *)
Definition executeRobotMove (direction : string) (duration : float) (speed : Z)
    (w : World) : option World :=
  let w := setStatus (set_isMoving true) w in
  let w := setStatus (set_moveStartTime (millis w)) w in
  match duration_ms duration with
  | None => None
  | Some ms =>
      let w := setStatus (set_moveDuration ms) w in
      let started := println (LogStartMove direction duration speed) in
      if String.eqb direction "forward" then Some (started (moveForward speed w))
      else if String.eqb direction "backward" then Some (started (moveBackward speed w))
      else if String.eqb direction "left" then Some (started (turnLeft speed w))
      else if String.eqb direction "right" then Some (started (turnRight speed w))
      else if String.eqb direction "stop" then Some (stopRobot w)
      else Some (started w)
  end.

(** [checkRobotMovement()] *)
Definition checkRobotMovement (w : World) : World :=
  if isMoving (robotStatus w) && (0 <? moveDuration (robotStatus w)) then
    let elapsed := ulong (millis w - moveStartTime (robotStatus w)) in
    if moveDuration (robotStatus w) <=? elapsed
    then println LogMoveDone (stopRobot w)
    else w
  else w.

(** [getBatteryLevel()] *)
Definition getBatteryLevel (w : World) : Z :=
  let adcValue := analogA0 w in
  let batteryLevel := Arduino.map adcValue 0 4095 0 100 in
  Arduino.constrain batteryLevel 0 100.

(** ** Decoded messages

    A decoded document is represented by what the handler can read from it.
    A member is [None] when the key is absent, and the [as<T>()] accessors of
    ArduinoJson 6 then give the defaults below; a [command] member that is
    present without being an object reads as a command with no members. *)

Module Json.

Record Step : Set := mkStep {
  step_direction : option string;
  step_duration : option float
}.

Record Command : Set := mkCommand {
  cmd_action : option string;
  cmd_direction : option string;
  cmd_duration : option float;
  cmd_speed : option Z;
  cmd_sequence : list Step
}.

Record Document : Set := mkDocument {
  doc_type : option string;
  doc_command : option Command
}.

(** [containsKey] *)
Definition containsKey {A : Type} (member : option A) : bool :=
  match member with Some _ => true | None => false end.

(** [as<String>()]: a null variant is rendered as its JSON text. *)
Definition as_String (v : option string) : string :=
  match v with Some s => s | None => "null" end.

(** [as<float>()] *)
Definition as_float (v : option float) : float :=
  match v with Some f => f | None => fzero end.

(** [as<int>()] *)
Definition as_int (v : option Z) : Z :=
  match v with Some n => n | None => 0 end.

End Json.

(** ** Outcomes of code that contains the blocking wait *)

Inductive Outcome : Set :=
| Finished (w : World)     (* the call returned *)
| OutOfFuel (w : World)    (* still inside a wait loop when the fuel ran out *)
| Undefined.               (* an undefined conversion was executed *)

Definition bind (o : Outcome) (k : World -> Outcome) : Outcome :=
  match o with
  | Finished w => k w
  | OutOfFuel w => OutOfFuel w
  | Undefined => Undefined
  end.

Definition lift (o : option World) : Outcome :=
  match o with Some w => Finished w | None => Undefined end.

(** [while (robotStatus.isMoving) { checkRobotMovement(); delay(10); }]
    run for at most [fuel] iterations. *)
Fixpoint waitWhileMoving (fuel : nat) (w : World) : Outcome :=
  if isMoving (robotStatus w) then
    match fuel with
    | O => OutOfFuel w
    | S fuel' => waitWhileMoving fuel' (delay 10 (checkRobotMovement w))
    end
  else Finished w.

(** The body of [for (JsonObject step : sequence)]. *)
Definition sequenceStep (fuel : nat) (speed : Z) (step : Json.Step) (w : World)
    : Outcome :=
  let direction := Json.as_String (Json.step_direction step) in
  let duration := Json.as_float (Json.step_duration step) in
  let w := println (LogSequenceStep direction duration) w in
  bind (lift (executeRobotMove direction duration speed w)) (fun w =>
  bind (waitWhileMoving fuel w) (fun w =>
  Finished (delay 100 w))).

(** The [for] loop over the steps; every wait loop gets [fuel] iterations. *)
Fixpoint runSequence (fuel : nat) (speed : Z) (steps : list Json.Step) (w : World)
    : Outcome :=
  match steps with
  | [] => Finished w
  | step :: rest =>
      bind (sequenceStep fuel speed step w) (runSequence fuel speed rest)
  end.

(** The status report of the [get_status] branch. *)
Definition statusData (w : World) : StatusData :=
  {| data_isMoving := isMoving (robotStatus w);
     data_direction := currentDirection (robotStatus w);
     data_speed := currentSpeed (robotStatus w);
     data_battery := getBatteryLevel w |}.

(** [handleRobotControlMessage(doc)] *)
Definition handleRobotControlMessage (fuel : nat) (doc : Json.Document) (w : World)
    : Outcome :=
  match Json.doc_command doc with
  | None => Finished (println LogMissingCommand w)
  | Some command =>
      let action := Json.as_String (Json.cmd_action command) in
      if String.eqb action "move" then
        let direction := Json.as_String (Json.cmd_direction command) in
        let duration := Json.as_float (Json.cmd_duration command) in
        let speed := Json.as_int (Json.cmd_speed command) in
        lift (executeRobotMove direction duration speed w)
      else if String.eqb action "sequence" then
        let sequence := Json.cmd_sequence command in
        let speed := Json.as_int (Json.cmd_speed command) in
        runSequence fuel speed sequence (println LogSequenceStart w)
      else if String.eqb action "get_status" then
        Finished (println LogStatusSent (emit (SendTXT (statusData w)) w))
      else Finished w
  end.

(** [webSocketEvent] for a text frame: [None] is a payload that
    [deserializeJson] rejects. *)
Definition webSocketEvent (fuel : nat) (message : option Json.Document) (w : World)
    : Outcome :=
  let w := println LogReceived w in
  match message with
  | None => Finished (println LogJsonError w)
  | Some doc =>
      let messageType := Json.as_String (Json.doc_type doc) in
      if String.eqb messageType "robot_control"
      then handleRobotControlMessage fuel doc w
      else Finished w
  end.

(** One turn of [loop()]: [webSocket.loop()] may deliver a text frame, then
    the movement is checked and the loop sleeps 10 ms. *)
Definition loop (fuel : nat) (frame : option (option Json.Document)) (w : World)
    : Outcome :=
  bind (match frame with
        | Some message => webSocketEvent fuel message w
        | None => Finished w
        end)
       (fun w => Finished (delay 10 (checkRobotMovement w))).

(** [initRobotControl()]: the pin modes and the PWM set-up leave no trace in
    the model; the robot is stopped. *)
Definition initRobotControl : World -> World :=
  stopRobot ;; println LogInitialized.

(** ** Vocabulary of the properties *)

(** The four directions that drive the motors. *)
Definition isMovingDirection (direction : string) : bool :=
  String.eqb direction "forward" || String.eqb direction "backward"
  || String.eqb direction "left" || String.eqb direction "right".

(** The five directions [executeRobotMove] compares against. *)
Definition isRecognizedDirection (direction : string) : bool :=
  isMovingDirection direction || String.eqb direction "stop".

(** "Not moving implies direction stop and speed zero". *)
Definition statusInvariant (s : RobotStatus) : Prop :=
  isMoving s = false -> currentDirection s = "stop" /\ currentSpeed s = 0.

(** The status is the stopped one. *)
Definition stopped (s : RobotStatus) : Prop :=
  isMoving s = false /\ currentDirection s = "stop" /\ currentSpeed s = 0.

(** The signals of one call of a motor operation: the four direction pins in
    the order the code writes them, then both PWM channels. *)
Definition motorSignals (lf lb rf rb : bool) (duty : Z) : list Output :=
  [DigitalWrite MOTOR_LEFT_FORWARD lf; DigitalWrite MOTOR_LEFT_BACKWARD lb;
   DigitalWrite MOTOR_RIGHT_FORWARD rf; DigitalWrite MOTOR_RIGHT_BACKWARD rb;
   LedcWrite 0 duty; LedcWrite 1 duty].

(** What a move operation leaves behind, given its pin levels, the direction
    it records and the line it prints. *)
Definition moved (speed : Z) (w : World) (lf lb rf rb : bool) (direction : string)
    (line : LogLine) : World :=
  {| robotStatus :=
       {| isMoving := isMoving (robotStatus w); currentDirection := direction;
          currentSpeed := speed;
          moveStartTime := moveStartTime (robotStatus w);
          moveDuration := moveDuration (robotStatus w) |};
     clock := clock w; analogA0 := analogA0 w;
     outputs := outputs w ++ motorSignals lf lb rf rb (ulong (pwmValue speed));
     serial := serial w ++ [line] |}.

(** The world once [executeRobotMove] has stored its three fields
    ([isMoving], [moveStartTime], [moveDuration]) and before it looks at the
    direction. *)
Definition armed (ms : Z) (w : World) : World :=
  {| robotStatus :=
       {| isMoving := true;
          currentDirection := currentDirection (robotStatus w);
          currentSpeed := currentSpeed (robotStatus w);
          moveStartTime := millis w;
          moveDuration := ms |};
     clock := clock w; analogA0 := analogA0 w;
     outputs := outputs w; serial := serial w |}.

(** The world when the clock shows [now], nothing else having happened. *)
Definition atTime (now : Z) (w : World) : World :=
  {| robotStatus := robotStatus w; clock := now; analogA0 := analogA0 w;
     outputs := outputs w; serial := serial w |}.

(** [now - moveStartTime] as [checkRobotMovement] computes it at clock
    reading [now]: an [unsigned long] difference. *)
Definition elapsedAt (now : Z) (s : RobotStatus) : Z :=
  ulong (ulong now - moveStartTime s).

(** Polling at each of the given clock readings, in order. *)
Fixpoint pollAt (nows : list Z) (w : World) : World :=
  match nows with
  | [] => w
  | now :: rest => pollAt rest (checkRobotMovement (atTime now w))
  end.

(** The world after a call of [executeRobotMove] that is defined. *)
Definition afterMove (direction : string) (duration : float) (speed : Z)
    (w : World) : World :=
  match executeRobotMove direction duration speed w with
  | Some w' => w'
  | None => w
  end.

(** An outcome that is not undefined carries a status with the property. *)
Definition outcomeSatisfies (P : RobotStatus -> Prop) (o : Outcome) : Prop :=
  match o with
  | Finished w | OutOfFuel w => P (robotStatus w)
  | Undefined => True
  end.

(** [r] is an integer nearest to the fraction [num / den] (for [den > 0]),
    whichever way ties are broken. *)
Definition nearest (num den r : Z) : Prop := 2 * Z.abs (den * r - num) <= den.

(** The duty cycle in the specification's words: [speed * 255 / 100] rounded
    to nearest (ties upward). *)
Definition roundedDuty (speed : Z) : Z := (2 * (speed * 255) + 100) / (2 * 100).

(** A command that lacks a required top-level field: no [command] member, or
    no [action] member in the command. *)
Definition missingRequiredField (doc : Json.Document) : bool :=
  match Json.doc_command doc with
  | None => true
  | Some command => negb (Json.containsKey (Json.cmd_action command))
  end.

(** A sequence step given by its two members. *)
Definition step (direction : string) (duration : float) : Json.Step :=
  {| Json.step_direction := Some direction; Json.step_duration := Some duration |}.

(** A [sequence] command. *)
Definition sequenceCommand (steps : list Json.Step) (speed : Z) : Json.Document :=
  {| Json.doc_type := Some "robot_control";
     Json.doc_command := Some
       {| Json.cmd_action := Some "sequence"; Json.cmd_direction := None;
          Json.cmd_duration := None; Json.cmd_speed := Some speed;
          Json.cmd_sequence := steps |} |}.

(** ** Further vocabulary: the pin table, timed steps, the idle main loop *)

(** The signals [executeRobotMove] issues for a direction, read off the four
    move operations and [stopRobot]; nothing for any other string. *)
Definition directionSignals (speed : Z) (direction : string) : list Output :=
  if String.eqb direction "forward"
  then motorSignals true false true false (ulong (pwmValue speed))
  else if String.eqb direction "backward"
  then motorSignals false true false true (ulong (pwmValue speed))
  else if String.eqb direction "left"
  then motorSignals false true true false (ulong (pwmValue speed))
  else if String.eqb direction "right"
  then motorSignals true false false true (ulong (pwmValue speed))
  else if String.eqb direction "stop"
  then motorSignals false false false false 0
  else [].

(** A signal that switches something off: a pin driven low, a zero duty. *)
Definition isOffSignal (o : Output) : bool :=
  match o with
  | DigitalWrite _ level => negb level
  | LedcWrite _ duty => duty =? 0
  | SendTXT _ => false
  end.

(** The number of 10 ms waits before the poll that meets a deadline of [ms]
    milliseconds: the least [k] with [10 * k >= ms]. *)
Definition pollsNeeded (ms : Z) : Z := (ms + 9) / 10.

(** The direction and the millisecond count a sequence step asks for. *)
Definition stepDirection (st : Json.Step) : string :=
  Json.as_String (Json.step_direction st).

Definition stepMs (st : Json.Step) : option Z :=
  duration_ms (Json.as_float (Json.step_duration st)).

(** A step the sequence loop gets through with [fuel] iterations of its wait
    loop: a "stop" step with a defined count, or any other step with a
    positive count that the wait loop reaches in time. *)
Definition stepCompletes (fuel : nat) (st : Json.Step) : bool :=
  match stepMs st with
  | None => false
  | Some ms =>
      String.eqb (stepDirection st) "stop"
      || ((0 <? ms) && (ms <=? 2 ^ 32 - 10) && (pollsNeeded ms + 1 <=? Z.of_nat fuel))
  end.

(** What a completed step has written: the signals of its direction, then,
    unless it is a "stop" step itself, the stop signals of the auto-stop. *)
Definition stepOutputs (speed : Z) (st : Json.Step) : list Output :=
  directionSignals speed (stepDirection st)
  ++ (if String.eqb (stepDirection st) "stop" then []
      else motorSignals false false false false 0).

(** The time a completed step takes on the model clock: the waits of the
    loop (one more than [pollsNeeded]) and the pause of 100 ms. *)
Definition stepTime (st : Json.Step) : Z :=
  match stepMs st with
  | None => 0
  | Some ms =>
      if String.eqb (stepDirection st) "stop" then 100
      else 10 * pollsNeeded ms + 10 + 100
  end.

(** [n] turns of [loop()] in which no frame arrives. *)
Fixpoint idleLoops (n : nat) (w : World) : Outcome :=
  match n with
  | O => Finished w
  | S n' => bind (loop O None w) (idleLoops n')
  end.

(** A checker: the durations of [n], [n + 1], ... whole seconds ([count] of
    them) are all stored as exactly 1000 times as many milliseconds. *)
Fixpoint wholeSecondsExactFrom (count : nat) (n : Z) : bool :=
  match count with
  | O => true
  | S count' =>
      match duration_ms (float_of_int n) with
      | Some ms => ms =? 1000 * n
      | None => false
      end && wholeSecondsExactFrom count' (n + 1)
  end.

(** * Properties *)

(** ** Machine arithmetic *)

Lemma ulong_small z : 0 <= z < 2 ^ 32 -> ulong z = z.
Proof. intros H. unfold ulong. apply Z.mod_small. exact H. Qed.

Lemma ulong_range z : 0 <= ulong z < 2 ^ 32.
Proof. unfold ulong. apply Z.mod_pos_bound. reflexivity. Qed.

(** The unsigned difference of two clock readings is the time between them,
    as long as that is less than 2^32 ms. *)
Lemma elapsed_ulong c dt :
  0 <= dt < 2 ^ 32 -> ulong (ulong (c + dt) - ulong c) = dt.
Proof.
  intros H. unfold ulong.
  rewrite <- Zminus_mod.
  replace (c + dt - c) with dt by lia.
  apply Z.mod_small. exact H.
Qed.

Lemma float_to_ulong_range f ms : float_to_ulong f = Some ms -> 0 <= ms < 2 ^ 32.
Proof.
  destruct f as [s|s| |s m e]; cbn [float_to_ulong]; try discriminate.
  - intros [= <-]. lia.
  - destruct (trunc_mag m e =? 0) eqn:E0.
    + intros [= <-]. lia.
    + destruct s; try discriminate.
      destruct (trunc_mag m e <? 2 ^ 32) eqn:E1; try discriminate.
      intros [= <-].
      apply Z.ltb_lt in E1. apply Z.eqb_neq in E0.
      assert (0 <= trunc_mag m e).
      { unfold trunc_mag. destruct (0 <=? e) eqn:Ee.
        - apply Z.leb_le in Ee. apply Z.mul_nonneg_nonneg; [lia|].
          apply Z.pow_nonneg. lia.
        - apply Z.div_pos; [lia|]. apply Z.pow_pos_nonneg; [lia|].
          apply Z.leb_gt in Ee. lia. }
      lia.
Qed.

Lemma duration_ms_range d ms : duration_ms d = Some ms -> 0 <= ms < 2 ^ 32.
Proof. apply float_to_ulong_range. Qed.

(** A product with a negative sign never converts to a positive count. *)
Lemma round_negative_to_ulong m e :
  float_to_ulong (binary_round_aux prec emax true m e loc_Exact) = Some 0
  \/ float_to_ulong (binary_round_aux prec emax true m e loc_Exact) = None.
Proof.
  unfold binary_round_aux.
  destruct (shr_fexp prec emax m e loc_Exact) as [mrs' e'].
  destruct (shr_fexp prec emax _ e' loc_Exact) as [mrs'' e''].
  destruct (shr_m mrs'') as [|p|p]; [left; reflexivity | | right; reflexivity].
  destruct (e'' <=? emax - prec); [|right; reflexivity].
  cbn [float_to_ulong].
  destruct (trunc_mag p e'' =? 0); auto.
Qed.

(** With [duration <= 0] the stored count is zero, or the conversion is
    undefined. *)
Lemma duration_ms_nonpositive d :
  fle0 d = true -> duration_ms d = Some 0 \/ duration_ms d = None.
Proof.
  unfold fle0, duration_ms, fmul.
  change (float_of_int 1000) with (S754_finite false 16384000 (-14)).
  destruct d as [s|s| |s m e].
  - intros _. left. reflexivity.
  - intros _. right. reflexivity.
  - discriminate.
  - destruct s; [|discriminate]. intros _.
    cbn [SFmul xorb]. apply round_negative_to_ulong.
Qed.

(** ** The motor operations in closed form *)

Lemma stopRobot_closed w :
  stopRobot w =
  {| robotStatus :=
       {| isMoving := false; currentDirection := "stop"; currentSpeed := 0;
          moveStartTime := moveStartTime (robotStatus w);
          moveDuration := moveDuration (robotStatus w) |};
     clock := clock w; analogA0 := analogA0 w;
     outputs := outputs w ++ motorSignals false false false false 0;
     serial := serial w |}.
Proof.
  unfold stopRobot, seq, digitalWrite, ledcWrite, emit, setStatus. simpl.
  repeat rewrite <- app_assoc. reflexivity.
Qed.

Section MoveOperations.

Variable speed : Z.
Variable w : World.

Ltac closed_form f :=
  unfold f, moved, seq, digitalWrite, ledcWrite, emit, setStatus, println;
  simpl; repeat rewrite <- app_assoc; reflexivity.

Lemma moveForward_closed :
  moveForward speed w = moved speed w true false true false "forward" (LogForward speed).
Proof. closed_form moveForward. Qed.

Lemma moveBackward_closed :
  moveBackward speed w = moved speed w false true false true "backward" (LogBackward speed).
Proof. closed_form moveBackward. Qed.

Lemma turnLeft_closed :
  turnLeft speed w = moved speed w false true true false "left" (LogLeft speed).
Proof. closed_form turnLeft. Qed.

Lemma turnRight_closed :
  turnRight speed w = moved speed w true false false true "right" (LogRight speed).
Proof. closed_form turnRight. Qed.

End MoveOperations.

(** ** Duty cycle *)

(** The duty cycle is [speed * 255 / 100] rounded to nearest. *)
Lemma pwmValue_rounded speed : pwmValue speed = roundedDuty speed.
Proof.
  unfold pwmValue, Arduino.map, roundedDuty.
  replace ((speed - 0) * (255 - 0)) with (speed * 255) by lia.
  replace (100 - 0) with 100 by lia.
  lia.
Qed.

Lemma roundedDuty_spec speed :
  200 * roundedDuty speed <= 510 * speed + 100 < 200 * (roundedDuty speed + 1).
Proof.
  unfold roundedDuty.
  pose proof (Z.mul_div_le (2 * (speed * 255) + 100) (2 * 100) ltac:(lia)).
  pose proof (Z.mul_succ_div_gt (2 * (speed * 255) + 100) (2 * 100) ltac:(lia)).
  lia.
Qed.

Lemma pwmValue_bounds speed : 0 <= speed <= 100 -> 0 <= pwmValue speed <= 255.
Proof.
  intros H. rewrite pwmValue_rounded.
  pose proof (roundedDuty_spec speed). lia.
Qed.

(** ** [executeRobotMove] by direction *)

Section ExecuteRobotMove.

Variable direction : string.
Variable duration : float.
Variable speed : Z.
Variable w : World.
Variable ms : Z.
Hypothesis Hms : duration_ms duration = Some ms.

Local Abbreviation started := (println (LogStartMove direction duration speed)).

Lemma executeRobotMove_dispatch :
  executeRobotMove direction duration speed w =
  if String.eqb direction "forward" then Some (started (moveForward speed (armed ms w)))
  else if String.eqb direction "backward" then Some (started (moveBackward speed (armed ms w)))
  else if String.eqb direction "left" then Some (started (turnLeft speed (armed ms w)))
  else if String.eqb direction "right" then Some (started (turnRight speed (armed ms w)))
  else if String.eqb direction "stop" then Some (stopRobot (armed ms w))
  else Some (started (armed ms w)).
Proof. unfold executeRobotMove. rewrite Hms. reflexivity. Qed.

Lemma executeRobotMove_stop :
  direction = "stop" ->
  executeRobotMove direction duration speed w = Some (stopRobot (armed ms w)).
Proof. intros E. rewrite executeRobotMove_dispatch, E. reflexivity. Qed.

Lemma executeRobotMove_unrecognized :
  isRecognizedDirection direction = false ->
  executeRobotMove direction duration speed w = Some (started (armed ms w)).
Proof.
  unfold isRecognizedDirection, isMovingDirection. intros H.
  rewrite executeRobotMove_dispatch.
  repeat (apply orb_false_elim in H; destruct H as [H ?]).
  repeat match goal with E : String.eqb _ _ = false |- _ => rewrite E; clear E end.
  reflexivity.
Qed.

Lemma executeRobotMove_moving :
  isMovingDirection direction = true ->
  exists lf lb rf rb line,
    executeRobotMove direction duration speed w =
    Some (started (moved speed (armed ms w) lf lb rf rb direction line)).
Proof.
  unfold isMovingDirection. intros H.
  rewrite executeRobotMove_dispatch.
  destruct (String.eqb direction "forward") eqn:Ef.
  { apply String.eqb_eq in Ef. rewrite moveForward_closed, <- Ef. eauto 6. }
  destruct (String.eqb direction "backward") eqn:Eb.
  { apply String.eqb_eq in Eb. rewrite moveBackward_closed, <- Eb. eauto 6. }
  destruct (String.eqb direction "left") eqn:El.
  { apply String.eqb_eq in El. rewrite turnLeft_closed, <- El. eauto 6. }
  destruct (String.eqb direction "right") eqn:Er.
  { apply String.eqb_eq in Er. rewrite turnRight_closed, <- Er. eauto 6. }
  discriminate.
Qed.

(** Whatever the direction, the call returns, and the two timer fields hold
    the clock reading and the new count. *)
Lemma executeRobotMove_timer :
  exists w',
    executeRobotMove direction duration speed w = Some w'
    /\ moveStartTime (robotStatus w') = millis w
    /\ moveDuration (robotStatus w') = ms
    /\ clock w' = clock w
    /\ isMoving (robotStatus w') = negb (String.eqb direction "stop").
Proof.
  destruct (isRecognizedDirection direction) eqn:Hrec.
  - unfold isRecognizedDirection in Hrec. apply orb_prop in Hrec.
    destruct Hrec as [Hmov | Hstop].
    + destruct (executeRobotMove_moving Hmov) as (lf & lb & rf & rb & line & E).
      eexists. split; [exact E|]. simpl. repeat split.
      destruct (String.eqb direction "stop") eqn:Es; [|reflexivity].
      apply String.eqb_eq in Es. rewrite Es in Hmov. discriminate.
    + apply String.eqb_eq in Hstop.
      eexists. split; [apply executeRobotMove_stop; exact Hstop|].
      rewrite stopRobot_closed, Hstop. simpl. repeat split.
  - eexists. split; [apply executeRobotMove_unrecognized; exact Hrec|].
    simpl. repeat split.
    unfold isRecognizedDirection in Hrec. apply orb_false_elim in Hrec.
    destruct Hrec as [_ ->]. reflexivity.
Qed.

End ExecuteRobotMove.

(** ** Polling *)

Lemma atTime_clock w : atTime (clock w) w = w.
Proof. destruct w. reflexivity. Qed.

Lemma atTime_atTime a b w : atTime b (atTime a w) = atTime b w.
Proof. reflexivity. Qed.

Lemma checkRobotMovement_idle w :
  isMoving (robotStatus w) = false -> checkRobotMovement w = w.
Proof. intros H. unfold checkRobotMovement. rewrite H. reflexivity. Qed.

Lemma checkRobotMovement_no_timer w :
  moveDuration (robotStatus w) = 0 -> checkRobotMovement w = w.
Proof.
  intros H. unfold checkRobotMovement. rewrite H.
  rewrite andb_false_r. reflexivity.
Qed.

Lemma checkRobotMovement_before w :
  elapsedAt (clock w) (robotStatus w) < moveDuration (robotStatus w) ->
  checkRobotMovement w = w.
Proof.
  intros H. unfold checkRobotMovement.
  destruct (isMoving (robotStatus w) && (0 <? moveDuration (robotStatus w)));
    [|reflexivity].
  apply Z.leb_gt in H. unfold elapsedAt in H. unfold millis. rewrite H. reflexivity.
Qed.

Lemma checkRobotMovement_deadline w :
  isMoving (robotStatus w) = true ->
  0 < moveDuration (robotStatus w) ->
  moveDuration (robotStatus w) <= elapsedAt (clock w) (robotStatus w) ->
  checkRobotMovement w = println LogMoveDone (stopRobot w).
Proof.
  intros Hm Hpos Hle. unfold checkRobotMovement.
  rewrite Hm. apply Z.ltb_lt in Hpos. rewrite Hpos.
  apply Z.leb_le in Hle. unfold elapsedAt in Hle. unfold millis.
  simpl. rewrite Hle. reflexivity.
Qed.

(** A poll does nothing unless it is the auto-stop. *)
Lemma checkRobotMovement_cases w :
  checkRobotMovement w = w \/ checkRobotMovement w = println LogMoveDone (stopRobot w).
Proof.
  unfold checkRobotMovement.
  destruct (isMoving (robotStatus w) && (0 <? moveDuration (robotStatus w))); auto.
  destruct (moveDuration (robotStatus w) <=? _); auto.
Qed.

Lemma last_cons {A : Type} (a d : A) (l : list A) : last (a :: l) d = last l a.
Proof.
  revert a d. induction l as [|b l IH]; intros a d; [reflexivity|].
  change (last (a :: b :: l) d) with (last (b :: l) d).
  rewrite (IH b d). symmetry. apply IH.
Qed.

(** Polls that do nothing leave the world as it is but for the clock. *)
Lemma pollAt_unchanged nows : forall w,
  Forall (fun now => checkRobotMovement (atTime now w) = atTime now w) nows ->
  pollAt nows w = atTime (last nows (clock w)) w.
Proof.
  induction nows as [|now rest IH]; intros w H.
  - simpl. symmetry. apply atTime_clock.
  - inversion H as [|? ? Hnow Hrest]; subst.
    cbn [pollAt]. rewrite Hnow, IH.
    + rewrite atTime_atTime, last_cons. reflexivity.
    + revert Hrest. apply Forall_impl. intros t Ht.
      rewrite atTime_atTime. exact Ht.
Qed.

(** No poll changes anything when the robot is not moving or the stored
    duration is zero. *)
Lemma pollAt_void nows w :
  isMoving (robotStatus w) = false \/ moveDuration (robotStatus w) = 0 ->
  pollAt nows w = atTime (last nows (clock w)) w.
Proof.
  intros H. apply pollAt_unchanged.
  apply Forall_forall. intros now _.
  destruct H as [H|H].
  - apply checkRobotMovement_idle. exact H.
  - apply checkRobotMovement_no_timer. exact H.
Qed.

(** No poll before the deadline changes anything. *)
Lemma pollAt_before nows w :
  Forall (fun now => elapsedAt now (robotStatus w) < moveDuration (robotStatus w)) nows ->
  pollAt nows w = atTime (last nows (clock w)) w.
Proof.
  intros H. apply pollAt_unchanged.
  revert H. apply Forall_impl. intros now Hnow.
  apply checkRobotMovement_before. exact Hnow.
Qed.

Lemma pollAt_app nows now w :
  pollAt (nows ++ [now]) w = checkRobotMovement (atTime now (pollAt nows w)).
Proof.
  revert w. induction nows as [|t rest IH]; intros w; [reflexivity|].
  simpl. apply IH.
Qed.

(** ** Stopping *)

(** C10.  [stopRobot] is idempotent on the robot status: a second call in
    succession leaves exactly the status of the first, which is the stopped
    one (direction "stop", speed 0, not moving) with the two timer fields as
    they were before. *)
Theorem stopRobot_idempotent (w : World) :
  robotStatus (stopRobot (stopRobot w)) = robotStatus (stopRobot w)
  /\ stopped (robotStatus (stopRobot w))
  /\ moveStartTime (robotStatus (stopRobot w)) = moveStartTime (robotStatus w)
  /\ moveDuration (robotStatus (stopRobot w)) = moveDuration (robotStatus w).
Proof.
  rewrite (stopRobot_closed (stopRobot w)), (stopRobot_closed w). simpl.
  unfold stopped. simpl. repeat split.
Qed.

(** ** The duty cycle of the move operations *)

(** C6.  For every speed in [0,100] the duty cycle the move operations
    compute is [speed * 255 / 100] rounded to nearest: it equals the rounded
    quotient, no integer is nearer to the exact quotient, and it lies in
    [0,255].  It is the value all four operations write to both PWM
    channels. *)
Theorem duty_cycle_rounded (speed : Z) (w : World) :
  0 <= speed <= 100 ->
  pwmValue speed = roundedDuty speed
  /\ nearest (speed * 255) 100 (pwmValue speed)
  /\ 0 <= pwmValue speed <= 255
  /\ outputs (moveForward speed w) =
       outputs w ++ motorSignals true false true false (roundedDuty speed)
  /\ outputs (moveBackward speed w) =
       outputs w ++ motorSignals false true false true (roundedDuty speed)
  /\ outputs (turnLeft speed w) =
       outputs w ++ motorSignals false true true false (roundedDuty speed)
  /\ outputs (turnRight speed w) =
       outputs w ++ motorSignals true false false true (roundedDuty speed).
Proof.
  intros H.
  pose proof (pwmValue_rounded speed) as Hq.
  pose proof (pwmValue_bounds speed H) as Hb.
  split; [exact Hq|]. split.
  { unfold nearest. rewrite Hq.
    pose proof (roundedDuty_spec speed). lia. }
  split; [exact Hb|].
  rewrite moveForward_closed, moveBackward_closed, turnLeft_closed, turnRight_closed.
  simpl. rewrite (ulong_small (pwmValue speed)) by lia. rewrite Hq.
  repeat split.
Qed.

Lemma duty_cycle_rounded_witness :
  pwmValue 33 = 84 /\ nearest (33 * 255) 100 (pwmValue 33) /\ 0 <= pwmValue 33 <= 255.
Proof.
  destruct (duty_cycle_rounded 33 initialWorld ltac:(lia)) as (Hq & Hn & Hb & _).
  split; [exact Hq|]. split; [exact Hn | exact Hb].
Defined.

(** ** Single moves *)

(** C3 as stated fails: an unrecognized direction is not a no-op on the
    status.  From the initial state, [executeRobotMove("jump", 1.0, 50)]
    sets [isMoving] and stores a duration of 1000 ms. *)
Lemma unrecognized_direction_changes_status :
  isRecognizedDirection "jump" = false
  /\ exists w',
       executeRobotMove "jump" (float_of_int 1) 50 initialWorld = Some w'
       /\ isMoving (robotStatus w') = true
       /\ moveDuration (robotStatus w') = 1000
       /\ robotStatus w' <> robotStatus initialWorld.
Proof.
  split; [reflexivity|].
  eexists. split; [reflexivity|]. simpl.
  repeat split. discriminate.
Qed.

(** C3 (amended).  For every call of [executeRobotMove] with a direction
    that is not one of the five recognized values (and a duration whose
    millisecond count is defined), no actuation signal is issued and the
    recorded direction and speed are unchanged; the status is nevertheless
    written: [isMoving] becomes true, [moveStartTime] is the clock reading
    and [moveDuration] the new millisecond count. *)
Theorem unrecognized_direction_effect
    (direction : string) (duration : float) (speed : Z) (w : World) (ms : Z) :
  isRecognizedDirection direction = false ->
  duration_ms duration = Some ms ->
  exists w',
    executeRobotMove direction duration speed w = Some w'
    /\ outputs w' = outputs w
    /\ currentDirection (robotStatus w') = currentDirection (robotStatus w)
    /\ currentSpeed (robotStatus w') = currentSpeed (robotStatus w)
    /\ isMoving (robotStatus w') = true
    /\ moveStartTime (robotStatus w') = millis w
    /\ moveDuration (robotStatus w') = ms.
Proof.
  intros Hrec Hms.
  eexists. split.
  - apply (executeRobotMove_unrecognized direction duration speed w ms Hms Hrec).
  - simpl. repeat split.
Qed.

Lemma unrecognized_direction_effect_witness :
  exists w',
    executeRobotMove "jump" (float_of_int 1) 50 initialWorld = Some w'
    /\ outputs w' = outputs initialWorld
    /\ currentDirection (robotStatus w') = currentDirection (robotStatus initialWorld)
    /\ currentSpeed (robotStatus w') = currentSpeed (robotStatus initialWorld)
    /\ isMoving (robotStatus w') = true
    /\ moveStartTime (robotStatus w') = millis initialWorld
    /\ moveDuration (robotStatus w') = 1000.
Proof.
  apply (unrecognized_direction_effect "jump" (float_of_int 1) 50 initialWorld 1000);
    reflexivity.
Defined.

(** C2 as stated fails for [duration <= 0] with a moving direction: from the
    initial state, [executeRobotMove("forward", 0.0, 50)] does not stop the
    robot; it is left moving forward at speed 50. *)
Lemma zero_duration_move_does_not_stop :
  fle0 fzero = true
  /\ exists w',
       executeRobotMove "forward" fzero 50 initialWorld = Some w'
       /\ isMoving (robotStatus w') = true
       /\ currentDirection (robotStatus w') = "forward"
       /\ currentSpeed (robotStatus w') = 50
       /\ ~ stopped (robotStatus w').
Proof.
  split; [reflexivity|].
  eexists. split; [reflexivity|]. simpl. repeat split.
  intros (H & _). discriminate.
Qed.

(** C2 (amended).  For every call of [executeRobotMove] whose duration has a
    defined millisecond count: when the direction is "stop" or the count is
    zero, no timer is armed, that is, no later poll changes anything (polls
    only let time pass).  With direction "stop" the robot is stopped at once
    ([isMoving] false, direction "stop", speed 0).  With a moving direction
    the robot is not stopped: it moves in that direction at the given speed. *)
Theorem stop_or_zero_duration_arms_no_timer
    (direction : string) (duration : float) (speed : Z) (w : World) (ms : Z) :
  duration_ms duration = Some ms ->
  direction = "stop" \/ ms = 0 ->
  exists w',
    executeRobotMove direction duration speed w = Some w'
    /\ (forall nows, pollAt nows w' = atTime (last nows (clock w')) w')
    /\ (direction = "stop" -> stopped (robotStatus w'))
    /\ (isMovingDirection direction = true ->
        isMoving (robotStatus w') = true
        /\ currentDirection (robotStatus w') = direction
        /\ currentSpeed (robotStatus w') = speed).
Proof.
  intros Hms Hcase.
  destruct (executeRobotMove_timer direction duration speed w ms Hms)
    as (w' & E & _ & Hdur & _ & Hmov).
  exists w'. split; [exact E|]. split; [|split].
  - intros nows. apply pollAt_void.
    destruct Hcase as [Hstop | Hzero].
    + left. rewrite Hmov, Hstop. reflexivity.
    + right. rewrite Hdur. exact Hzero.
  - intros Hstop.
    rewrite (executeRobotMove_stop direction duration speed w ms Hms Hstop) in E.
    injection E as <-. rewrite stopRobot_closed. unfold stopped. simpl.
    repeat split.
  - intros Hdir.
    destruct (executeRobotMove_moving direction duration speed w ms Hms Hdir)
      as (lf & lb & rf & rb & line & E').
    rewrite E' in E. injection E as <-. simpl. repeat split.
Qed.

Lemma stop_or_zero_duration_arms_no_timer_witness :
  exists w',
    executeRobotMove "stop" (float_of_int 2) 50 initialWorld = Some w'
    /\ stopped (robotStatus w')
    /\ pollAt [10; 5000] w' = atTime 5000 w'.
Proof.
  destruct (stop_or_zero_duration_arms_no_timer
              "stop" (float_of_int 2) 50 initialWorld 2000
              ltac:(reflexivity) ltac:(left; reflexivity))
    as (w' & E & Hpoll & Hstop & _).
  exists w'. split; [exact E|]. split; [apply Hstop; reflexivity | apply Hpoll].
Defined.

(** Within 2^32 ms of the start the unsigned difference is the time gone by. *)
Lemma elapsedAt_since_start (s : RobotStatus) (c dt : Z) :
  moveStartTime s = ulong c -> 0 <= dt < 2 ^ 32 -> elapsedAt (c + dt) s = dt.
Proof. intros Hs Hdt. unfold elapsedAt. rewrite Hs. apply elapsed_ulong. exact Hdt. Qed.

(** A move in progress with a positive stored duration: polls before the
    deadline change nothing, the first poll at or after it stops the robot. *)
Lemma move_in_progress_expires (w : World) (nows : list Z) :
  isMoving (robotStatus w) = true ->
  0 < moveDuration (robotStatus w) ->
  Forall (fun now => elapsedAt now (robotStatus w) < moveDuration (robotStatus w)) nows ->
  pollAt nows w = atTime (last nows (clock w)) w
  /\ forall now,
       moveDuration (robotStatus w) <= elapsedAt now (robotStatus w) ->
       stopped (robotStatus (pollAt (nows ++ [now]) w)).
Proof.
  intros Hm Hpos Hbefore.
  pose proof (pollAt_before nows w Hbefore) as Hsame.
  split; [exact Hsame|].
  intros now Hnow.
  rewrite pollAt_app, Hsame, atTime_atTime.
  rewrite checkRobotMovement_deadline; [| exact Hm | exact Hpos | exact Hnow].
  rewrite stopRobot_closed. unfold stopped. simpl. repeat split.
Qed.

(** C5 as stated fails for a positive duration below one millisecond: the
    stored count is [duration * 1000] truncated, here 0, and a zero count
    never expires.  From the initial state,
    [executeRobotMove("forward", 2^-11, 50)] (about 0.49 ms) leaves the robot
    moving at every later poll, also those a second or more after the start. *)
Lemma submillisecond_move_never_expires :
  fgt0 (float_lit 1 (-11)) = true
  /\ exists w',
       executeRobotMove "forward" (float_lit 1 (-11)) 50 initialWorld = Some w'
       /\ moveStartTime (robotStatus w') = 0
       /\ moveDuration (robotStatus w') = 0
       /\ isMoving (robotStatus (checkRobotMovement (atTime 1 w'))) = true
       /\ isMoving (robotStatus (checkRobotMovement (atTime 1000 w'))) = true
       /\ forall nows, isMoving (robotStatus (pollAt nows w')) = true.
Proof.
  split; [reflexivity|].
  eexists. split; [reflexivity|].
  split; [reflexivity|]. split; [reflexivity|].
  split; [reflexivity|]. split; [reflexivity|].
  intros nows. rewrite pollAt_void; [reflexivity | right; reflexivity].
Qed.

(** C5 (amended).  After [executeRobotMove] with a recognized moving
    direction and a duration whose millisecond count [ms] (that is,
    [duration * 1000] truncated to an [unsigned long]) is at least 1, the
    robot moves in that direction at that speed; every poll at a clock
    reading [now] with [now - moveStartTime < ms] leaves the world unchanged
    (still moving, same direction and speed), and the first poll with
    [now - moveStartTime >= ms] stops the robot: [isMoving] false, direction
    "stop", speed 0.  The difference is the [unsigned long] one the code
    computes. *)
Theorem timed_move_expires_at_deadline
    (direction : string) (duration : float) (speed : Z) (w : World) (ms : Z) :
  isMovingDirection direction = true ->
  duration_ms duration = Some ms ->
  0 < ms ->
  exists w',
    executeRobotMove direction duration speed w = Some w'
    /\ isMoving (robotStatus w') = true
    /\ currentDirection (robotStatus w') = direction
    /\ currentSpeed (robotStatus w') = speed
    /\ moveStartTime (robotStatus w') = millis w
    /\ moveDuration (robotStatus w') = ms
    /\ forall nows,
         Forall (fun now => elapsedAt now (robotStatus w') < ms) nows ->
         pollAt nows w' = atTime (last nows (clock w')) w'
         /\ forall now,
              ms <= elapsedAt now (robotStatus w') ->
              stopped (robotStatus (pollAt (nows ++ [now]) w')).
Proof.
  intros Hdir Hms Hpos.
  destruct (executeRobotMove_moving direction duration speed w ms Hms Hdir)
    as (lf & lb & rf & rb & line & E).
  eexists. split; [exact E|].
  do 5 (split; [reflexivity|]).
  intros nows Hbefore.
  apply move_in_progress_expires; [reflexivity | exact Hpos | exact Hbefore].
Qed.

(** The scenario of the specification: [executeRobotMove("forward", 2.0, 50)],
    a poll 1000 ms later changes nothing, the poll 2100 ms after the start
    stops the robot. *)
Lemma timed_move_expires_at_deadline_witness :
  exists w',
    executeRobotMove "forward" (float_of_int 2) 50 initialWorld = Some w'
    /\ isMoving (robotStatus w') = true
    /\ pollAt [1000] w' = atTime 1000 w'
    /\ stopped (robotStatus (pollAt [1000; 2100] w')).
Proof.
  destruct (timed_move_expires_at_deadline
              "forward" (float_of_int 2) 50 initialWorld 2000
              ltac:(reflexivity) ltac:(reflexivity) ltac:(lia))
    as (w' & E & Hm & _ & _ & Hs & _ & Hpoll).
  assert (Hbefore : Forall (fun now => elapsedAt now (robotStatus w') < 2000) [1000]).
  { constructor; [|constructor]. unfold elapsedAt. rewrite Hs. vm_compute. reflexivity. }
  destruct (Hpoll [1000] Hbefore) as (Hsame & Hstop).
  exists w'. split; [exact E|]. split; [exact Hm|]. split; [exact Hsame|].
  apply (Hstop 2100). unfold elapsedAt. rewrite Hs. vm_compute. discriminate.
Defined.

(** ** Sequences *)

Lemma bind_assoc o k1 k2 :
  bind (bind o k1) k2 = bind o (fun w => bind (k1 w) k2).
Proof. destruct o; reflexivity. Qed.

Lemma bind_ext o k1 k2 : (forall w, k1 w = k2 w) -> bind o k1 = bind o k2.
Proof. intros H. destruct o; simpl; auto. Qed.

Lemma runSequence_app fuel speed pre post : forall w,
  runSequence fuel speed (pre ++ post) w =
  bind (runSequence fuel speed pre w) (runSequence fuel speed post).
Proof.
  induction pre as [|s pre IH]; intros w; [reflexivity|].
  simpl. rewrite bind_assoc. apply bind_ext. exact IH.
Qed.

Lemma waitWhileMoving_idle fuel w :
  isMoving (robotStatus w) = false -> waitWhileMoving fuel w = Finished w.
Proof. intros H. destruct fuel; simpl; rewrite H; reflexivity. Qed.

(** With a zero stored duration the wait loop never exits: whatever the
    fuel, it is still waiting, the status untouched. *)
Lemma waitWhileMoving_no_timer fuel : forall w,
  isMoving (robotStatus w) = true ->
  moveDuration (robotStatus w) = 0 ->
  exists w',
    waitWhileMoving fuel w = OutOfFuel w'
    /\ robotStatus w' = robotStatus w
    /\ outputs w' = outputs w.
Proof.
  induction fuel as [|fuel IH]; intros w Hm Hd; simpl; rewrite Hm.
  - exists w. auto.
  - rewrite (checkRobotMovement_no_timer w Hd).
    destruct (IH (delay 10 w) Hm Hd) as (w' & E & Hs & Ho).
    exists w'. auto.
Qed.

(** The handler on a [sequence] command is the loop over its steps. *)
Lemma handleRobotControlMessage_sequence fuel steps speed w :
  handleRobotControlMessage fuel (sequenceCommand steps speed) w =
  runSequence fuel speed steps (println LogSequenceStart w).
Proof. reflexivity. Qed.

(** A "stop" step: the robot is stopped, the wait loop is not entered, the
    pause of 100 ms follows. *)
Lemma sequenceStep_stop fuel speed duration w ms :
  duration_ms duration = Some ms ->
  sequenceStep fuel speed (step "stop" duration) w =
  Finished (delay 100 (stopRobot
    (armed ms (println (LogSequenceStep "stop" duration) w)))).
Proof.
  intros Hms. unfold sequenceStep, step. cbn [Json.as_String Json.as_float
    Json.step_direction Json.step_duration].
  rewrite (executeRobotMove_stop "stop" duration speed _ ms Hms eq_refl).
  cbn [lift bind]. rewrite waitWhileMoving_idle.
  - reflexivity.
  - rewrite stopRobot_closed. reflexivity.
Qed.

(** C1 as stated fails: a "stop" step does not end the sequence.  The
    sequence [stop, forward for 1 s] at speed 60, run from the initial
    state, returns after the forward step has driven the motors (pins 2 and
    16 high, duty 153) and stored its duration of 1000 ms; the sequence
    without the step after the stop gives another result. *)
Lemma step_after_stop_is_executed :
  exists w',
    handleRobotControlMessage 200
      (sequenceCommand [step "stop" fzero; step "forward" (float_of_int 1)] 60)
      initialWorld = Finished w'
    /\ outputs w' =
         motorSignals false false false false 0
         ++ motorSignals true false true false 153
         ++ motorSignals false false false false 0
    /\ moveDuration (robotStatus w') = 1000
    /\ In (LogForward 60) (serial w')
    /\ handleRobotControlMessage 200
         (sequenceCommand [step "stop" fzero] 60) initialWorld <> Finished w'.
Proof.
  eexists. split; [vm_compute; reflexivity|].
  split; [reflexivity|]. split; [reflexivity|].
  split; [simpl; tauto|].
  vm_compute. discriminate.
Qed.

(** C1 (amended).  During the execution of a sequence command, a step whose
    direction is "stop" stops the robot at once, without waiting, and does
    not end the sequence: after the pause of 100 ms the steps that follow it
    are executed, starting from the stopped state. *)
Theorem stop_step_does_not_end_sequence
    (fuel : nat) (speed : Z) (pre post : list Json.Step) (duration : float)
    (w : World) (ms : Z) :
  duration_ms duration = Some ms ->
  handleRobotControlMessage fuel
    (sequenceCommand (pre ++ step "stop" duration :: post) speed) w =
  bind (handleRobotControlMessage fuel (sequenceCommand pre speed) w) (fun w1 =>
    runSequence fuel speed post
      (delay 100 (stopRobot
         (armed ms (println (LogSequenceStep "stop" duration) w1))))).
Proof.
  intros Hms.
  rewrite !handleRobotControlMessage_sequence, runSequence_app.
  apply bind_ext. intros w1.
  cbn [runSequence]. rewrite (sequenceStep_stop fuel speed duration w1 ms Hms).
  reflexivity.
Qed.

Lemma stop_step_does_not_end_sequence_witness :
  handleRobotControlMessage 200
    (sequenceCommand ([] ++ step "stop" fzero :: [step "forward" (float_of_int 1)]) 50)
    initialWorld =
  bind (handleRobotControlMessage 200 (sequenceCommand [] 50) initialWorld) (fun w1 =>
    runSequence 200 50 [step "forward" (float_of_int 1)]
      (delay 100 (stopRobot
         (armed 0 (println (LogSequenceStep "stop" fzero) w1))))).
Proof.
  apply (stop_step_does_not_end_sequence 200 50 [] [step "forward" (float_of_int 1)]
           fzero initialWorld 0).
  reflexivity.
Defined.

(** A step that is not a "stop" and stores a zero duration never completes:
    its wait loop is still running when the fuel is used up, however much
    there is. *)
Lemma sequenceStep_no_timer fuel speed st w :
  String.eqb (Json.as_String (Json.step_direction st)) "stop" = false ->
  duration_ms (Json.as_float (Json.step_duration st)) = Some 0 ->
  exists w',
    sequenceStep fuel speed st w = OutOfFuel w'
    /\ isMoving (robotStatus w') = true
    /\ moveDuration (robotStatus w') = 0.
Proof.
  intros Hdir Hms. unfold sequenceStep.
  destruct (executeRobotMove_timer
              (Json.as_String (Json.step_direction st))
              (Json.as_float (Json.step_duration st)) speed
              (println (LogSequenceStep (Json.as_String (Json.step_direction st))
                          (Json.as_float (Json.step_duration st))) w) 0 Hms)
    as (w1 & E & _ & Hd & _ & Hm).
  rewrite E. cbn [lift bind]. rewrite Hdir in Hm.
  destruct (waitWhileMoving_no_timer fuel w1 Hm Hd) as (w' & Ew & Hs & _).
  rewrite Ew. exists w'. cbn [bind]. rewrite Hs. auto.
Qed.

(** With a duration [<= 0] a step that is not a "stop" never completes. *)
Lemma sequenceStep_nonpositive fuel speed st w :
  String.eqb (Json.as_String (Json.step_direction st)) "stop" = false ->
  fle0 (Json.as_float (Json.step_duration st)) = true ->
  forall w', sequenceStep fuel speed st w <> Finished w'.
Proof.
  intros Hdir Hle w'.
  destruct (duration_ms_nonpositive _ Hle) as [Hms | Hms].
  - destruct (sequenceStep_no_timer fuel speed st w Hdir Hms) as (w1 & E & _).
    rewrite E. discriminate.
  - unfold sequenceStep, executeRobotMove. rewrite Hms. discriminate.
Qed.

Lemma bind_Finished o k w' :
  bind o k = Finished w' -> exists w1, o = Finished w1 /\ k w1 = Finished w'.
Proof. destruct o; simpl; intros H; try discriminate. eauto. Qed.

(** C4.  A sequence command that contains a step whose direction is not
    "stop" (a moving direction or an unrecognized string) and whose duration
    is [<= 0] never lets the handler return, whatever the number of
    iterations allowed to the wait loops.  When the steps before it complete
    and the duration converts to the count 0, the handler is still inside
    the wait loop of that step at any fuel, with [isMoving] true and a stored
    duration of 0, which no poll ever expires. *)
Theorem sequence_with_untimed_step_never_returns
    (fuel : nat) (speed : Z) (pre post : list Json.Step) (st : Json.Step) (w : World) :
  String.eqb (Json.as_String (Json.step_direction st)) "stop" = false ->
  fle0 (Json.as_float (Json.step_duration st)) = true ->
  (forall w',
     handleRobotControlMessage fuel (sequenceCommand (pre ++ st :: post) speed) w
     <> Finished w')
  /\ (forall w1,
        handleRobotControlMessage fuel (sequenceCommand pre speed) w = Finished w1 ->
        duration_ms (Json.as_float (Json.step_duration st)) = Some 0 ->
        exists w',
          handleRobotControlMessage fuel
            (sequenceCommand (pre ++ st :: post) speed) w = OutOfFuel w'
          /\ isMoving (robotStatus w') = true
          /\ moveDuration (robotStatus w') = 0
          /\ forall nows, isMoving (robotStatus (pollAt nows w')) = true).
Proof.
  intros Hdir Hle.
  rewrite !handleRobotControlMessage_sequence, runSequence_app.
  split.
  - intros w' H.
    apply bind_Finished in H. destruct H as (w1 & _ & H).
    cbn [runSequence] in H.
    apply bind_Finished in H. destruct H as (w2 & H & _).
    exact (sequenceStep_nonpositive fuel speed st w1 Hdir Hle w2 H).
  - intros w1 Hpre Hms. rewrite Hpre. cbn [bind runSequence].
    destruct (sequenceStep_no_timer fuel speed st w1 Hdir Hms) as (w' & E & Hm & Hd).
    rewrite E. exists w'. cbn [bind].
    split; [reflexivity|]. split; [exact Hm|]. split; [exact Hd|].
    intros nows. rewrite pollAt_void by (right; exact Hd). exact Hm.
Qed.

Lemma sequence_with_untimed_step_never_returns_witness :
  (forall w',
     handleRobotControlMessage 1000
       (sequenceCommand ([step "forward" (float_of_int 1)]
                         ++ step "left" fzero :: [step "right" (float_of_int 1)]) 30)
       initialWorld <> Finished w')
  /\ exists w',
       handleRobotControlMessage 1000
         (sequenceCommand ([step "forward" (float_of_int 1)]
                           ++ step "left" fzero :: [step "right" (float_of_int 1)]) 30)
         initialWorld = OutOfFuel w'
       /\ isMoving (robotStatus w') = true.
Proof.
  destruct (sequence_with_untimed_step_never_returns
              1000 30 [step "forward" (float_of_int 1)] [step "right" (float_of_int 1)]
              (step "left" fzero) initialWorld
              ltac:(reflexivity) ltac:(reflexivity))
    as (Hnever & Hstuck).
  split; [exact Hnever|].
  destruct (Hstuck _ ltac:(vm_compute; reflexivity) ltac:(reflexivity))
    as (w' & E & Hm & _).
  exists w'. split; [exact E | exact Hm].
Defined.

(** ** The status invariant *)

Lemma stopRobot_invariant w : statusInvariant (robotStatus (stopRobot w)).
Proof. rewrite stopRobot_closed. intros _. simpl. auto. Qed.

(** [executeRobotMove] establishes the invariant from any state. *)
Lemma executeRobotMove_invariant direction duration speed w w' :
  executeRobotMove direction duration speed w = Some w' ->
  statusInvariant (robotStatus w').
Proof.
  intros E.
  destruct (duration_ms duration) as [ms|] eqn:Hms.
  - destruct (String.eqb direction "stop") eqn:Hstop.
    + apply String.eqb_eq in Hstop.
      rewrite (executeRobotMove_stop direction duration speed w ms Hms Hstop) in E.
      injection E as <-. apply stopRobot_invariant.
    + destruct (executeRobotMove_timer direction duration speed w ms Hms)
        as (w1 & E1 & _ & _ & _ & Hm).
      rewrite E1 in E. injection E as <-.
      rewrite Hstop in Hm. intros Hidle. rewrite Hm in Hidle. discriminate.
  - unfold executeRobotMove in E. rewrite Hms in E. discriminate.
Qed.

Lemma checkRobotMovement_invariant w :
  statusInvariant (robotStatus w) ->
  statusInvariant (robotStatus (checkRobotMovement w)).
Proof.
  intros H. destruct (checkRobotMovement_cases w) as [-> | ->].
  - exact H.
  - apply stopRobot_invariant.
Qed.

Lemma waitWhileMoving_invariant fuel : forall w,
  statusInvariant (robotStatus w) ->
  outcomeSatisfies statusInvariant (waitWhileMoving fuel w).
Proof.
  induction fuel as [|fuel IH]; intros w H; simpl;
    destruct (isMoving (robotStatus w)); try exact H.
  apply IH. apply (checkRobotMovement_invariant w H).
Qed.

Lemma bind_satisfies (P : RobotStatus -> Prop) o k :
  outcomeSatisfies P o ->
  (forall w, P (robotStatus w) -> outcomeSatisfies P (k w)) ->
  outcomeSatisfies P (bind o k).
Proof. destruct o; simpl; auto. Qed.

Lemma sequenceStep_invariant fuel speed st w :
  outcomeSatisfies statusInvariant (sequenceStep fuel speed st w).
Proof.
  unfold sequenceStep.
  destruct (executeRobotMove _ _ speed _) as [w1|] eqn:E; [|exact I].
  cbn [lift bind].
  apply bind_satisfies.
  - apply waitWhileMoving_invariant.
    apply (executeRobotMove_invariant _ _ _ _ _ E).
  - intros w2 H. exact H.
Qed.

Lemma runSequence_invariant fuel speed steps : forall w,
  statusInvariant (robotStatus w) ->
  outcomeSatisfies statusInvariant (runSequence fuel speed steps w).
Proof.
  induction steps as [|st rest IH]; intros w H; [exact H|].
  cbn [runSequence]. apply bind_satisfies.
  - apply sequenceStep_invariant.
  - exact IH.
Qed.

Lemma handleRobotControlMessage_invariant fuel doc w :
  statusInvariant (robotStatus w) ->
  outcomeSatisfies statusInvariant (handleRobotControlMessage fuel doc w).
Proof.
  intros H. unfold handleRobotControlMessage.
  destruct (Json.doc_command doc) as [command|]; [|exact H].
  destruct (String.eqb _ "move").
  { destruct (executeRobotMove _ _ _ w) as [w1|] eqn:E; [|exact I].
    apply (executeRobotMove_invariant _ _ _ _ _ E). }
  destruct (String.eqb _ "sequence").
  { apply runSequence_invariant. exact H. }
  destruct (String.eqb _ "get_status"); exact H.
Qed.

(** C7.  "Not moving implies direction stop and speed 0" holds of the initial
    status and is preserved by every operation: [stopRobot] and
    [executeRobotMove] (any direction) establish it, [checkRobotMovement]
    preserves it, and so does the dispatch of any command by
    [handleRobotControlMessage], by [webSocketEvent] and by a turn of
    [loop], whether the call returns or is still waiting in a sequence. *)
Theorem status_invariant_preserved :
  statusInvariant initialStatus
  /\ (forall w, statusInvariant (robotStatus (stopRobot w)))
  /\ (forall direction duration speed w w',
        executeRobotMove direction duration speed w = Some w' ->
        statusInvariant (robotStatus w'))
  /\ (forall w,
        statusInvariant (robotStatus w) ->
        statusInvariant (robotStatus (checkRobotMovement w)))
  /\ (forall fuel doc w,
        statusInvariant (robotStatus w) ->
        outcomeSatisfies statusInvariant (handleRobotControlMessage fuel doc w))
  /\ (forall fuel message w,
        statusInvariant (robotStatus w) ->
        outcomeSatisfies statusInvariant (webSocketEvent fuel message w))
  /\ (forall fuel frame w,
        statusInvariant (robotStatus w) ->
        outcomeSatisfies statusInvariant (loop fuel frame w)).
Proof.
  assert (Hws : forall fuel message w,
             statusInvariant (robotStatus w) ->
             outcomeSatisfies statusInvariant (webSocketEvent fuel message w)).
  { intros fuel message w H. unfold webSocketEvent.
    destruct message as [doc|]; [|exact H].
    destruct (String.eqb _ "robot_control"); [|exact H].
    apply handleRobotControlMessage_invariant. exact H. }
  split; [intros _; split; reflexivity|].
  split; [exact stopRobot_invariant|].
  split; [exact executeRobotMove_invariant|].
  split; [exact checkRobotMovement_invariant|].
  split; [exact handleRobotControlMessage_invariant|].
  split; [exact Hws|].
  intros fuel frame w H. unfold loop.
  apply bind_satisfies.
  - destruct frame as [message|]; [apply Hws|]; exact H.
  - intros w1 H1. apply (checkRobotMovement_invariant w1 H1).
Qed.

Lemma status_invariant_preserved_witness :
  statusInvariant (robotStatus initialWorld)
  /\ outcomeSatisfies statusInvariant
       (handleRobotControlMessage 200
          (sequenceCommand [step "forward" (float_of_int 1); step "jump" fzero] 50)
          initialWorld).
Proof.
  destruct status_invariant_preserved as (Hinit & _ & _ & _ & Hhandle & _).
  split; [exact Hinit|].
  apply Hhandle. exact Hinit.
Defined.

(** ** Malformed commands *)

(** C9.  A command that lacks a required top-level field (no [command]
    member, or no [action] member in the command) is dropped: the handler
    returns, the robot status is unchanged, and nothing is written to the
    pins, the PWM channels or the web socket. *)
Theorem command_missing_field_is_dropped
    (fuel : nat) (doc : Json.Document) (w : World) :
  missingRequiredField doc = true ->
  exists w',
    handleRobotControlMessage fuel doc w = Finished w'
    /\ robotStatus w' = robotStatus w
    /\ outputs w' = outputs w
    /\ clock w' = clock w.
Proof.
  unfold missingRequiredField, handleRobotControlMessage.
  destruct (Json.doc_command doc) as [command|].
  - destruct (Json.cmd_action command) as [action|]; [discriminate|].
    intros _. exists w. repeat split.
  - intros _. eexists. split; [reflexivity|]. repeat split.
Qed.

Lemma command_missing_field_is_dropped_witness :
  exists w',
    handleRobotControlMessage 10
      {| Json.doc_type := Some "robot_control";
         Json.doc_command := Some
           {| Json.cmd_action := None; Json.cmd_direction := Some "forward";
              Json.cmd_duration := Some (float_of_int 1); Json.cmd_speed := Some 50;
              Json.cmd_sequence := [] |} |}
      (afterMove "left" (float_of_int 2) 40 initialWorld) = Finished w'
    /\ robotStatus w' = robotStatus (afterMove "left" (float_of_int 2) 40 initialWorld)
    /\ outputs w' = outputs (afterMove "left" (float_of_int 2) 40 initialWorld).
Proof.
  destruct (command_missing_field_is_dropped 10
              {| Json.doc_type := Some "robot_control";
                 Json.doc_command := Some
                   {| Json.cmd_action := None; Json.cmd_direction := Some "forward";
                      Json.cmd_duration := Some (float_of_int 1);
                      Json.cmd_speed := Some 50; Json.cmd_sequence := [] |} |}
              (afterMove "left" (float_of_int 2) 40 initialWorld)
              ltac:(reflexivity))
    as (w' & E & Hs & Ho & _).
  exists w'. split; [exact E|]. split; [exact Hs | exact Ho].
Defined.

(** * Further properties of the code *)

(** ** Battery level *)

(** [constrain] lands in its interval. *)
Lemma constrain_range amt low high :
  low <= high -> low <= Arduino.constrain amt low high <= high.
Proof.
  intros H. unfold Arduino.constrain.
  destruct (amt <? low) eqn:E1; [lia|].
  destruct (high <? amt) eqn:E2; [lia|].
  apply Z.ltb_ge in E1. apply Z.ltb_ge in E2. lia.
Qed.

(** The battery level reported is always a percentage between 0 and 100,
    whatever the analog reading and whatever the scaling gives: the result
    is clamped. *)
Theorem getBatteryLevel_percentage (w : World) : 0 <= getBatteryLevel w <= 100.
Proof. unfold getBatteryLevel. apply constrain_range. lia. Qed.

(** ** Status queries and ignored messages *)

(** A [get_status] command is answered with exactly one message that carries
    the current [isMoving], direction and speed and a battery percentage; the
    robot status, the motors and the clock are left alone. *)
Theorem get_status_reports_current_status
    (fuel : nat) (doc : Json.Document) (command : Json.Command) (w : World) :
  Json.doc_command doc = Some command ->
  Json.cmd_action command = Some "get_status" ->
  exists w' battery,
    handleRobotControlMessage fuel doc w = Finished w'
    /\ outputs w' =
         outputs w ++
         [SendTXT {| data_isMoving := isMoving (robotStatus w);
                     data_direction := currentDirection (robotStatus w);
                     data_speed := currentSpeed (robotStatus w);
                     data_battery := battery |}]
    /\ 0 <= battery <= 100
    /\ robotStatus w' = robotStatus w
    /\ clock w' = clock w.
Proof.
  intros Hc Ha. unfold handleRobotControlMessage. rewrite Hc, Ha.
  cbn [Json.as_String]. change (String.eqb "get_status" "move") with false.
  change (String.eqb "get_status" "sequence") with false.
  change (String.eqb "get_status" "get_status") with true. cbv iota.
  eexists. exists (getBatteryLevel w). split; [reflexivity|].
  split; [reflexivity|].
  split; [unfold getBatteryLevel; apply constrain_range; lia|].
  split; reflexivity.
Qed.

Lemma get_status_reports_current_status_witness :
  exists w' battery,
    handleRobotControlMessage 0
      {| Json.doc_type := Some "robot_control";
         Json.doc_command := Some (Json.mkCommand (Some "get_status") None None None []) |}
      (afterMove "right" (float_of_int 3) 70 initialWorld) = Finished w'
    /\ outputs w' =
         outputs (afterMove "right" (float_of_int 3) 70 initialWorld) ++
         [SendTXT {| data_isMoving := true; data_direction := "right";
                     data_speed := 70; data_battery := battery |}]
    /\ 0 <= battery <= 100.
Proof.
  destruct (get_status_reports_current_status 0
              {| Json.doc_type := Some "robot_control";
                 Json.doc_command :=
                   Some (Json.mkCommand (Some "get_status") None None None []) |}
              (Json.mkCommand (Some "get_status") None None None [])
              (afterMove "right" (float_of_int 3) 70 initialWorld)
              eq_refl eq_refl)
    as (w' & battery & E & Ho & Hb & _).
  exists w', battery. split; [exact E|]. split; [exact Ho | exact Hb].
Defined.

(** A command whose action is none of "move", "sequence" and "get_status" is
    ignored without a trace: the handler returns the world as it found it,
    with nothing printed either. *)
Theorem unknown_action_is_ignored
    (fuel : nat) (doc : Json.Document) (command : Json.Command) (w : World) :
  Json.doc_command doc = Some command ->
  String.eqb (Json.as_String (Json.cmd_action command)) "move" = false ->
  String.eqb (Json.as_String (Json.cmd_action command)) "sequence" = false ->
  String.eqb (Json.as_String (Json.cmd_action command)) "get_status" = false ->
  handleRobotControlMessage fuel doc w = Finished w.
Proof.
  intros Hc H1 H2 H3. unfold handleRobotControlMessage.
  rewrite Hc, H1, H2, H3. reflexivity.
Qed.

Lemma unknown_action_is_ignored_witness :
  handleRobotControlMessage 5
    {| Json.doc_type := Some "robot_control";
       Json.doc_command :=
         Some (Json.mkCommand (Some "dance") (Some "forward") None (Some 80) []) |}
    initialWorld = Finished initialWorld.
Proof.
  apply (unknown_action_is_ignored 5 _
           (Json.mkCommand (Some "dance") (Some "forward") None (Some 80) []));
    reflexivity.
Defined.

(** A text frame that does not parse, or whose type is not "robot_control"
    (also when the type is missing), never reaches the robot: the status and
    everything written to the motors and the web socket stay as they were. *)
Theorem foreign_frame_leaves_robot_alone
    (fuel : nat) (message : option Json.Document) (w : World) :
  match message with
  | None => True
  | Some doc => String.eqb (Json.as_String (Json.doc_type doc)) "robot_control" = false
  end ->
  exists w',
    webSocketEvent fuel message w = Finished w'
    /\ robotStatus w' = robotStatus w
    /\ outputs w' = outputs w
    /\ clock w' = clock w.
Proof.
  intros H. unfold webSocketEvent.
  destruct message as [doc|].
  - rewrite H. eexists. split; [reflexivity|]. repeat split.
  - eexists. split; [reflexivity|]. repeat split.
Qed.

Lemma foreign_frame_leaves_robot_alone_witness :
  exists w',
    webSocketEvent 5
      (Some {| Json.doc_type := None;
               Json.doc_command :=
                 Some (Json.mkCommand (Some "move") (Some "forward") None (Some 80) []) |})
      initialWorld = Finished w'
    /\ robotStatus w' = robotStatus initialWorld
    /\ outputs w' = outputs initialWorld.
Proof.
  destruct (foreign_frame_leaves_robot_alone 5
              (Some {| Json.doc_type := None;
                       Json.doc_command :=
                         Some (Json.mkCommand (Some "move") (Some "forward") None
                                 (Some 80) []) |})
              initialWorld eq_refl)
    as (w' & E & Hs & Ho & _).
  exists w'. split; [exact E|]. split; [exact Hs | exact Ho].
Defined.

(** ** The direction table *)

Lemma executeRobotMove_outputs direction duration speed w ms :
  duration_ms duration = Some ms ->
  exists w',
    executeRobotMove direction duration speed w = Some w'
    /\ outputs w' = outputs w ++ directionSignals speed direction
    /\ clock w' = clock w
    /\ isMoving (robotStatus w') = negb (String.eqb direction "stop")
    /\ moveStartTime (robotStatus w') = millis w
    /\ moveDuration (robotStatus w') = ms.
Proof.
  intros Hms.
  rewrite (executeRobotMove_dispatch direction duration speed w ms Hms).
  unfold directionSignals.
  destruct (String.eqb direction "forward") eqn:Ef.
  { apply String.eqb_eq in Ef. subst direction.
    eexists. split; [reflexivity|]. rewrite moveForward_closed. repeat split. }
  destruct (String.eqb direction "backward") eqn:Eb.
  { apply String.eqb_eq in Eb. subst direction.
    eexists. split; [reflexivity|]. rewrite moveBackward_closed. repeat split. }
  destruct (String.eqb direction "left") eqn:El.
  { apply String.eqb_eq in El. subst direction.
    eexists. split; [reflexivity|]. rewrite turnLeft_closed. repeat split. }
  destruct (String.eqb direction "right") eqn:Er.
  { apply String.eqb_eq in Er. subst direction.
    eexists. split; [reflexivity|]. rewrite turnRight_closed. repeat split. }
  destruct (String.eqb direction "stop") eqn:Es.
  { eexists. split; [reflexivity|]. rewrite stopRobot_closed. repeat split. }
  eexists. split; [reflexivity|]. simpl. rewrite app_nil_r. repeat split.
Qed.



(** ** A new move during a move *)

(** C8 as stated fails for an unrecognized direction: the move in progress
    is not abandoned.  A forward move of 2 s at speed 60 is 500 ms old when
    [executeRobotMove("jump", 10.0, 30)] arrives: nothing is written to the
    motors, the recorded direction and speed stay "forward" and 60, and the
    robot goes on driving forward, now under the new timer: the poll at
    2500 ms, after the deadline of the forward move, leaves it moving. *)
Lemma unrecognized_direction_keeps_previous_move :
  isMoving (robotStatus
    (delay 500 (afterMove "forward" (float_of_int 2) 60 initialWorld))) = true
  /\ exists w',
       executeRobotMove "jump" (float_of_int 10) 30
         (delay 500 (afterMove "forward" (float_of_int 2) 60 initialWorld)) = Some w'
       /\ outputs w' = motorSignals true false true false 153
       /\ outputs w' = outputs (afterMove "forward" (float_of_int 2) 60 initialWorld)
       /\ isMoving (robotStatus w') = true
       /\ currentDirection (robotStatus w') = "forward"
       /\ currentSpeed (robotStatus w') = 60
       /\ moveStartTime (robotStatus w') = 500
       /\ moveDuration (robotStatus w') = 10000
       /\ checkRobotMovement (atTime 2500 w') = atTime 2500 w'.
Proof.
  split; [reflexivity|].
  eexists. split; [reflexivity|].
  repeat split.
Qed.

(** C8 (amended).  A call of [executeRobotMove] while a move is in progress
    (with a duration whose millisecond count is defined) overwrites the
    timer unconditionally: [moveStartTime] is the clock reading of the new
    call and [moveDuration] the new count, whatever the timer fields of the
    previous move were, and whether a later poll stops the robot is decided
    by the time since the new start against the new count.  With a
    recognized direction the motion is overwritten too: the signals of the
    new direction are written, and the status records the new direction and
    speed (for "stop": the robot is stopped).  With an unrecognized
    direction the previous motion is not abandoned: nothing is written, the
    recorded direction and speed stay, and only the timer is replaced. *)
Theorem new_move_overwrites_move_in_progress
    (direction : string) (duration : float) (speed : Z) (w : World) (ms : Z) :
  isMoving (robotStatus w) = true ->
  duration_ms duration = Some ms ->
  exists w',
    executeRobotMove direction duration speed w = Some w'
    /\ moveStartTime (robotStatus w') = millis w
    /\ moveDuration (robotStatus w') = ms
    /\ (forall start0 ms0,
          executeRobotMove direction duration speed
            (setStatus (set_moveStartTime start0 ;; set_moveDuration ms0) w) = Some w')
    /\ (forall now,
          isMoving (robotStatus (checkRobotMovement (atTime now w'))) =
          negb (String.eqb direction "stop")
          && negb ((0 <? ms) && (ms <=? ulong (ulong now - millis w))))
    /\ outputs w' = outputs w ++ directionSignals speed direction
    /\ (isMovingDirection direction = true ->
        isMoving (robotStatus w') = true
        /\ currentDirection (robotStatus w') = direction
        /\ currentSpeed (robotStatus w') = speed)
    /\ (direction = "stop" -> stopped (robotStatus w'))
    /\ (isRecognizedDirection direction = false ->
        isMoving (robotStatus w') = true
        /\ currentDirection (robotStatus w') = currentDirection (robotStatus w)
        /\ currentSpeed (robotStatus w') = currentSpeed (robotStatus w)
        /\ outputs w' = outputs w).
Proof.
  intros _ Hms.
  destruct (executeRobotMove_outputs direction duration speed w ms Hms)
    as (w' & E & Ho & _ & Hm & Hs & Hd).
  exists w'. split; [exact E|]. split; [exact Hs|]. split; [exact Hd|].
  split; [|split; [|split; [exact Ho|split; [|split]]]].
  - intros start0 ms0. rewrite <- E. reflexivity.
  - intros now. unfold checkRobotMovement, millis.
    change (robotStatus (atTime now w')) with (robotStatus w').
    change (clock (atTime now w')) with now.
    rewrite Hm, Hs, Hd. unfold millis.
    destruct (negb (String.eqb direction "stop")); [|exact Hm].
    destruct (0 <? ms); [|exact Hm].
    destruct (ms <=? ulong (ulong now - ulong (clock w))); cbn [andb negb].
    + rewrite stopRobot_closed. reflexivity.
    + exact Hm.
  - intros Hdir.
    destruct (executeRobotMove_moving direction duration speed w ms Hms Hdir)
      as (lf & lb & rf & rb & line & E').
    rewrite E' in E. injection E as <-. repeat split.
  - intros Hstop.
    rewrite (executeRobotMove_stop direction duration speed w ms Hms Hstop) in E.
    injection E as <-. rewrite stopRobot_closed. unfold stopped. simpl.
    repeat split.
  - intros Hrec.
    rewrite (executeRobotMove_unrecognized direction duration speed w ms Hms Hrec) in E.
    injection E as <-. repeat split.
Qed.

(** A forward move of 2 s at speed 50 is 500 ms old when
    [executeRobotMove("left", 1.0, 40)] arrives: the timer restarts at 500
    with 1000 ms to run, the pins are set for a left turn at duty 102, and
    the status records "left" at 40. *)
Lemma new_move_overwrites_move_in_progress_witness :
  exists w',
    executeRobotMove "left" (float_of_int 1) 40
      (delay 500 (afterMove "forward" (float_of_int 2) 50 initialWorld)) = Some w'
    /\ moveStartTime (robotStatus w') = 500
    /\ moveDuration (robotStatus w') = 1000
    /\ outputs w' =
         outputs (afterMove "forward" (float_of_int 2) 50 initialWorld)
         ++ motorSignals false true true false 102
    /\ currentDirection (robotStatus w') = "left"
    /\ currentSpeed (robotStatus w') = 40.
Proof.
  destruct (new_move_overwrites_move_in_progress
              "left" (float_of_int 1) 40
              (delay 500 (afterMove "forward" (float_of_int 2) 50 initialWorld)) 1000
              ltac:(reflexivity) ltac:(reflexivity))
    as (w' & E & Hs & Hd & _ & _ & Ho & Hmov & _).
  destruct (Hmov eq_refl) as (_ & Hdir & Hspeed).
  exists w'. split; [exact E|]. split; [exact Hs|]. split; [exact Hd|].
  split; [exact Ho|]. split; [exact Hdir | exact Hspeed].
Defined.

(** In the speed range the duty cycle grows strictly with the speed, from 0
    at speed 0 to 255 at speed 100: two different speeds never share a duty
    cycle. *)
Theorem duty_cycle_strictly_increasing (s1 s2 : Z) :
  0 <= s1 -> s1 < s2 -> s2 <= 100 ->
  pwmValue s1 < pwmValue s2 /\ pwmValue 0 = 0 /\ pwmValue 100 = 255.
Proof.
  intros H0 H12 H100.
  rewrite (pwmValue_rounded s1), (pwmValue_rounded s2).
  split; [|split; reflexivity].
  pose proof (roundedDuty_spec s1). pose proof (roundedDuty_spec s2). lia.
Qed.

Lemma duty_cycle_strictly_increasing_witness : pwmValue 49 < pwmValue 50.
Proof.
  apply (duty_cycle_strictly_increasing 49 50); lia.
Defined.

(** ** The timer across the wrap of [millis()] *)

(** The expiry test is right across the overflow of the millisecond clock:
    for a move in progress that started at any clock value [c], a poll [dt]
    milliseconds later ([dt < 2^32]) stops the robot exactly when [dt] has
    reached the stored duration, also when the 32-bit reading has wrapped
    in between. *)
Theorem timer_survives_clock_wrap (w : World) (c dt : Z) :
  isMoving (robotStatus w) = true ->
  moveStartTime (robotStatus w) = ulong c ->
  0 < moveDuration (robotStatus w) ->
  0 <= dt < 2 ^ 32 ->
  isMoving (robotStatus (checkRobotMovement (atTime (c + dt) w))) =
  (dt <? moveDuration (robotStatus w)).
Proof.
  intros Hm Hs Hpos Hdt.
  assert (He : elapsedAt (c + dt) (robotStatus w) = dt)
    by (apply elapsedAt_since_start; assumption).
  destruct (dt <? moveDuration (robotStatus w)) eqn:E.
  - apply Z.ltb_lt in E. rewrite checkRobotMovement_before; [exact Hm|].
    simpl. rewrite He. exact E.
  - apply Z.ltb_ge in E. rewrite checkRobotMovement_deadline.
    + rewrite stopRobot_closed. reflexivity.
    + exact Hm.
    + exact Hpos.
    + simpl. rewrite He. exact E.
Qed.

(** A move of 1000 ms armed 5 ms before the clock wraps: the poll 1000 ms
    later reads a small clock value and still stops the robot. *)
Lemma timer_survives_clock_wrap_witness :
  isMoving (robotStatus (checkRobotMovement
    (atTime (2 ^ 32 - 5 + 1000)
       (afterMove "forward" (float_of_int 1) 50 (atTime (2 ^ 32 - 5) initialWorld)))))
  = false.
Proof.
  apply (timer_survives_clock_wrap
           (afterMove "forward" (float_of_int 1) 50 (atTime (2 ^ 32 - 5) initialWorld))
           (2 ^ 32 - 5) 1000).
  - reflexivity.
  - reflexivity.
  - reflexivity.
  - lia.
Defined.

(** ** What a poll can do *)

(** A poll never switches anything on: what it writes is nothing or signals
    that drive pins low and duties to zero, and it never turns [isMoving]
    from false to true.  Polling twice at the same instant is the same as
    polling once. *)
Theorem poll_only_switches_off (w : World) :
  (exists added,
     outputs (checkRobotMovement w) = outputs w ++ added
     /\ forallb isOffSignal added = true)
  /\ (isMoving (robotStatus (checkRobotMovement w)) = true ->
      isMoving (robotStatus w) = true)
  /\ checkRobotMovement (checkRobotMovement w) = checkRobotMovement w.
Proof.
  destruct (checkRobotMovement_cases w) as [E | E]; rewrite E.
  - split; [|split].
    + exists []. rewrite app_nil_r. split; reflexivity.
    + auto.
    + exact E.
  - split; [|split].
    + rewrite stopRobot_closed. eexists. split; reflexivity.
    + rewrite stopRobot_closed. discriminate.
    + apply checkRobotMovement_idle. rewrite stopRobot_closed. reflexivity.
Qed.

(** ** Timed waits *)

Lemma pollsNeeded_spec ms : 10 * (pollsNeeded ms - 1) < ms <= 10 * pollsNeeded ms.
Proof.
  unfold pollsNeeded.
  pose proof (Z.mul_div_le (ms + 9) 10 ltac:(lia)).
  pose proof (Z.mul_succ_div_gt (ms + 9) 10 ltac:(lia)).
  lia.
Qed.

(** The wait loop on a move in progress, [j] waits of 10 ms after its start
    at clock [c]: the polls before the deadline only let time pass, the poll
    at the first multiple of 10 ms that reaches the deadline stops the
    robot, and the loop exits after one more wait. *)
Lemma waitWhileMoving_expires fuel : forall w c j,
  isMoving (robotStatus w) = true ->
  moveStartTime (robotStatus w) = ulong c ->
  clock w = c + 10 * j ->
  0 < moveDuration (robotStatus w) <= 2 ^ 32 - 10 ->
  0 <= j <= pollsNeeded (moveDuration (robotStatus w)) ->
  pollsNeeded (moveDuration (robotStatus w)) - j + 1 <= Z.of_nat fuel ->
  waitWhileMoving fuel w =
  Finished (delay 10 (println LogMoveDone (stopRobot
    (atTime (c + 10 * pollsNeeded (moveDuration (robotStatus w))) w)))).
Proof.
  induction fuel as [|fuel IH]; intros w c j Hm Hs Hc Hd Hj Hfuel.
  - simpl in Hfuel. lia.
  - pose proof (pollsNeeded_spec (moveDuration (robotStatus w))) as Hk.
    cbn [waitWhileMoving]. rewrite Hm.
    assert (He : elapsedAt (clock w) (robotStatus w) = 10 * j).
    { rewrite Hc. apply elapsedAt_since_start; [exact Hs | lia]. }
    destruct (Z_lt_le_dec (10 * j) (moveDuration (robotStatus w))) as [Hlt | Hge].
    + rewrite checkRobotMovement_before by (rewrite He; exact Hlt).
      rewrite (IH (delay 10 w) c (j + 1)); try assumption;
        cbn [delay robotStatus clock]; [reflexivity | lia | lia | lia].
    + assert (j = pollsNeeded (moveDuration (robotStatus w))) by lia.
      rewrite checkRobotMovement_deadline; [| exact Hm | lia | rewrite He; exact Hge].
      rewrite waitWhileMoving_idle by (rewrite stopRobot_closed; reflexivity).
      replace (c + 10 * pollsNeeded (moveDuration (robotStatus w))) with (clock w) by lia.
      rewrite atTime_clock. reflexivity.
Qed.

(** A sequence step that is not a "stop" and has a positive count (at most
    2^32 - 10): it completes, given fuel for its polls. *)
Lemma sequenceStep_timed fuel speed st w ms :
  stepMs st = Some ms ->
  String.eqb (stepDirection st) "stop" = false ->
  0 < ms <= 2 ^ 32 - 10 ->
  pollsNeeded ms + 1 <= Z.of_nat fuel ->
  exists w',
    sequenceStep fuel speed st w = Finished w'
    /\ stopped (robotStatus w')
    /\ outputs w' = outputs w ++ stepOutputs speed st
    /\ clock w' = clock w + stepTime st.
Proof.
  intros Hms Hdir Hrange Hfuel.
  unfold sequenceStep.
  fold (stepDirection st). unfold stepMs in Hms.
  destruct (executeRobotMove_outputs (stepDirection st)
              (Json.as_float (Json.step_duration st)) speed
              (println (LogSequenceStep (stepDirection st)
                          (Json.as_float (Json.step_duration st))) w) ms Hms)
    as (w1 & E & Ho & Hc & Hm & Hs & Hd).
  rewrite E. cbn [lift bind].
  rewrite Hdir in Hm. simpl in Hm, Hc, Ho.
  rewrite (waitWhileMoving_expires fuel w1 (clock w) 0); try assumption.
  - cbn [bind]. eexists. split; [reflexivity|].
    rewrite stopRobot_closed. unfold stopped, stepOutputs, stepTime.
    unfold stepMs. rewrite Hms, Hdir, Hd. simpl. rewrite Ho.
    rewrite <- app_assoc. repeat split. lia.
  - lia.
  - rewrite Hd. exact Hrange.
  - rewrite Hd. pose proof (pollsNeeded_spec ms). lia.
  - rewrite Hd. lia.
Qed.

Lemma sequenceStep_completes fuel speed st w :
  stepCompletes fuel st = true ->
  exists w',
    sequenceStep fuel speed st w = Finished w'
    /\ stopped (robotStatus w')
    /\ outputs w' = outputs w ++ stepOutputs speed st
    /\ clock w' = clock w + stepTime st.
Proof.
  unfold stepCompletes. destruct (stepMs st) as [ms|] eqn:Hms; [|discriminate].
  destruct (String.eqb (stepDirection st) "stop") eqn:Hdir.
  - intros _. apply String.eqb_eq in Hdir.
    unfold sequenceStep. fold (stepDirection st). unfold stepMs in Hms.
    rewrite (executeRobotMove_stop _ _ speed _ ms Hms Hdir).
    cbn [lift bind].
    rewrite waitWhileMoving_idle by (rewrite stopRobot_closed; reflexivity).
    cbn [bind]. eexists. split; [reflexivity|].
    rewrite stopRobot_closed. unfold stopped, stepOutputs, stepTime, stepMs.
    rewrite Hms, Hdir. simpl. repeat split.
  - rewrite orb_false_l. intros H.
    apply andb_prop in H. destruct H as [H H3].
    apply andb_prop in H. destruct H as [H1 H2].
    apply Z.ltb_lt in H1. apply Z.leb_le in H2. apply Z.leb_le in H3.
    apply (sequenceStep_timed fuel speed st w ms Hms Hdir); lia.
Qed.

(** ** Sequences that complete *)

(** A sequence command all of whose steps complete (each one a "stop", or
    with a positive count of at most 2^32 - 10 ms that the wait loop
    reaches) returns.  The motors have received, step by step and in order,
    the signals of the step's direction followed by the stop signals of its
    expiry; the clock has advanced by the waits and pauses of all steps; and
    unless the sequence is empty the robot is left stopped. *)
Theorem sequence_of_timed_steps_completes
    (fuel : nat) (speed : Z) (steps : list Json.Step) (w : World) :
  forallb (stepCompletes fuel) steps = true ->
  exists w',
    handleRobotControlMessage fuel (sequenceCommand steps speed) w = Finished w'
    /\ outputs w' = outputs w ++ flat_map (stepOutputs speed) steps
    /\ clock w' = clock w + fold_right Z.add 0 (List.map stepTime steps)
    /\ (steps <> [] -> stopped (robotStatus w'))
    /\ (steps = [] -> robotStatus w' = robotStatus w).
Proof.
  rewrite handleRobotControlMessage_sequence.
  change (outputs w) with (outputs (println LogSequenceStart w)).
  change (clock w) with (clock (println LogSequenceStart w)).
  change (robotStatus w) with (robotStatus (println LogSequenceStart w)).
  generalize (println LogSequenceStart w). clear w.
  induction steps as [|st rest IH]; intros w H.
  - exists w. simpl. rewrite app_nil_r.
    split; [reflexivity|]. split; [reflexivity|]. split; [lia|].
    split; [congruence | reflexivity].
  - simpl in H. apply andb_prop in H. destruct H as [Hst Hrest].
    destruct (sequenceStep_completes fuel speed st w Hst) as (w1 & E1 & Hs1 & Ho1 & Hc1).
    destruct (IH w1 Hrest) as (w' & E & Ho & Hc & Hs & Hnil).
    exists w'. cbn [runSequence]. rewrite E1. cbn [bind].
    split; [exact E|]. split; [|split; [|split]].
    + rewrite Ho, Ho1. simpl. rewrite <- app_assoc. reflexivity.
    + rewrite Hc, Hc1. simpl. lia.
    + intros _. destruct rest as [|st' rest'].
      * rewrite (Hnil eq_refl). exact Hs1.
      * apply Hs. discriminate.
    + discriminate.
Qed.

(** A sequence of two steps: forward for 1 s, left for 0.5 s, at speed 20. *)
Lemma sequence_of_timed_steps_completes_witness :
  exists w',
    handleRobotControlMessage 200
      (sequenceCommand [step "forward" (float_of_int 1); step "left" (float_lit 1 (-1))] 20)
      initialWorld = Finished w'
    /\ outputs w' =
         motorSignals true false true false 51
         ++ motorSignals false false false false 0
         ++ motorSignals false true true false 51
         ++ motorSignals false false false false 0
    /\ clock w' = 1110 + 610
    /\ stopped (robotStatus w').
Proof.
  destruct (sequence_of_timed_steps_completes 200 20
              [step "forward" (float_of_int 1); step "left" (float_lit 1 (-1))]
              initialWorld eq_refl)
    as (w' & E & Ho & Hc & Hs & _).
  exists w'. split; [exact E|]. split; [exact Ho|]. split; [exact Hc|].
  apply Hs. discriminate.
Defined.

(** ** The main loop *)

Lemma idleLoops_idle n : forall w,
  isMoving (robotStatus w) = false ->
  exists w',
    idleLoops n w = Finished w'
    /\ robotStatus w' = robotStatus w
    /\ outputs w' = outputs w
    /\ clock w' = clock w + 10 * Z.of_nat n.
Proof.
  induction n as [|n IH]; intros w H.
  - exists w. simpl. repeat split. lia.
  - cbn [idleLoops loop bind]. rewrite (checkRobotMovement_idle w H).
    destruct (IH (delay 10 w) H) as (w' & E & Hs & Ho & Hc).
    exists w'. split; [exact E|]. split; [exact Hs|]. split; [exact Ho|].
    rewrite Hc. cbn [delay clock]. lia.
Qed.

Lemma idleLoops_moving n : forall w c j,
  isMoving (robotStatus w) = true ->
  moveStartTime (robotStatus w) = ulong c ->
  clock w = c + 10 * j ->
  0 < moveDuration (robotStatus w) <= 2 ^ 32 - 10 ->
  0 <= j <= pollsNeeded (moveDuration (robotStatus w)) ->
  exists w',
    idleLoops n w = Finished w'
    /\ isMoving (robotStatus w') =
         (j + Z.of_nat n <=? pollsNeeded (moveDuration (robotStatus w)))
    /\ (isMoving (robotStatus w') = true ->
        robotStatus w' = robotStatus w /\ outputs w' = outputs w)
    /\ (isMoving (robotStatus w') = false ->
        stopped (robotStatus w')
        /\ outputs w' = outputs w ++ motorSignals false false false false 0)
    /\ clock w' = clock w + 10 * Z.of_nat n.
Proof.
  induction n as [|n IH]; intros w c j Hm Hs Hc Hd Hj.
  - exists w. cbn [idleLoops]. split; [reflexivity|].
    split; [rewrite Hm; symmetry; apply Z.leb_le; lia|].
    split; [auto|]. split; [rewrite Hm; discriminate | lia].
  - pose proof (pollsNeeded_spec (moveDuration (robotStatus w))) as Hk.
    cbn [idleLoops loop bind].
    assert (He : elapsedAt (clock w) (robotStatus w) = 10 * j).
    { rewrite Hc. apply elapsedAt_since_start; [exact Hs | lia]. }
    destruct (Z_lt_le_dec (10 * j) (moveDuration (robotStatus w))) as [Hlt | Hge].
    + rewrite checkRobotMovement_before by (rewrite He; exact Hlt).
      destruct (IH (delay 10 w) c (j + 1)) as (w' & E & Hmov & Hsame & Hstop & Hclk);
        try assumption; cbn [delay robotStatus clock]; try lia.
      exists w'. split; [exact E|].
      cbn [delay robotStatus clock outputs] in Hmov, Hsame, Hstop, Hclk.
      split; [rewrite Hmov; f_equal; lia|].
      split; [exact Hsame|]. split; [exact Hstop | lia].
    + assert (Ej : j = pollsNeeded (moveDuration (robotStatus w))) by lia.
      rewrite checkRobotMovement_deadline; [| exact Hm | lia | rewrite He; exact Hge].
      destruct (idleLoops_idle n (delay 10 (println LogMoveDone (stopRobot w))))
        as (w' & E & Hst & Ho & Hclk).
      { rewrite stopRobot_closed. reflexivity. }
      exists w'. split; [exact E|].
      rewrite Hst, Ho, Hclk. rewrite stopRobot_closed.
      cbn [delay println robotStatus clock outputs isMoving].
      split; [symmetry; apply Z.leb_gt; lia|].
      split; [discriminate|].
      split; [intros _; unfold stopped; simpl; repeat split | lia].
Qed.

(** A move in progress that [loop()] supervises without further frames: the
    robot is still moving after [n] turns exactly as long as [n] does not
    exceed [pollsNeeded] of the stored duration; from the next turn on it is
    stopped, the stop signals written once.  So the motors are switched off
    at the first multiple of 10 ms that reaches the duration, less than one
    polling period late.  (Durations of at most 2^32 - 10 ms.) *)
Theorem main_loop_stops_timed_move (w : World) (n : nat) :
  isMoving (robotStatus w) = true ->
  moveStartTime (robotStatus w) = millis w ->
  0 < moveDuration (robotStatus w) <= 2 ^ 32 - 10 ->
  exists w',
    idleLoops n w = Finished w'
    /\ isMoving (robotStatus w') =
         (Z.of_nat n <=? pollsNeeded (moveDuration (robotStatus w)))
    /\ (isMoving (robotStatus w') = true ->
        robotStatus w' = robotStatus w /\ outputs w' = outputs w)
    /\ (isMoving (robotStatus w') = false ->
        stopped (robotStatus w')
        /\ outputs w' = outputs w ++ motorSignals false false false false 0)
    /\ clock w' = clock w + 10 * Z.of_nat n.
Proof.
  intros Hm Hs Hd.
  pose proof (pollsNeeded_spec (moveDuration (robotStatus w))) as Hk.
  destruct (idleLoops_moving n w (clock w) 0 Hm Hs ltac:(lia) Hd ltac:(lia))
    as (w' & E & Hmov & Hrest).
  exists w'. split; [exact E|]. split; [|exact Hrest].
  rewrite Hmov. f_equal.
Qed.

(** After [executeRobotMove("forward", 2.0, 50)]: still moving after 200
    turns of the loop, stopped after 201. *)
Lemma main_loop_stops_timed_move_witness :
  (exists w',
     idleLoops 200 (afterMove "forward" (float_of_int 2) 50 initialWorld) = Finished w'
     /\ isMoving (robotStatus w') = true)
  /\ (exists w',
        idleLoops 201 (afterMove "forward" (float_of_int 2) 50 initialWorld) = Finished w'
        /\ isMoving (robotStatus w') = false).
Proof.
  split.
  - destruct (main_loop_stops_timed_move
                (afterMove "forward" (float_of_int 2) 50 initialWorld) 200
                eq_refl eq_refl ltac:(vm_compute; split; [reflexivity | discriminate]))
      as (w' & E & Hm & _).
    exists w'. split; [exact E | exact Hm].
  - destruct (main_loop_stops_timed_move
                (afterMove "forward" (float_of_int 2) 50 initialWorld) 201
                eq_refl eq_refl ltac:(vm_compute; split; [reflexivity | discriminate]))
      as (w' & E & Hm & _).
    exists w'. split; [exact E | exact Hm].
Defined.

(** ** Move commands with missing members *)

(** A "move" command for a moving direction that has no [duration] member
    reads the duration 0: the robot starts in that direction and is never
    stopped by a poll.  Without a [speed] member the recorded speed is 0. *)
Theorem move_without_duration_runs_untimed
    (fuel : nat) (doc : Json.Document) (command : Json.Command) (w : World)
    (direction : string) :
  Json.doc_command doc = Some command ->
  Json.cmd_action command = Some "move" ->
  Json.cmd_direction command = Some direction ->
  isMovingDirection direction = true ->
  Json.cmd_duration command = None ->
  exists w',
    handleRobotControlMessage fuel doc w = Finished w'
    /\ isMoving (robotStatus w') = true
    /\ currentDirection (robotStatus w') = direction
    /\ currentSpeed (robotStatus w') = Json.as_int (Json.cmd_speed command)
    /\ (Json.cmd_speed command = None -> currentSpeed (robotStatus w') = 0)
    /\ moveDuration (robotStatus w') = 0
    /\ forall nows, pollAt nows w' = atTime (last nows (clock w')) w'.
Proof.
  intros Hc Ha Hdir Hmov Hdur. unfold handleRobotControlMessage.
  rewrite Hc, Ha, Hdir, Hdur. cbn [Json.as_String Json.as_float].
  change (String.eqb "move" "move") with true. cbv iota.
  destruct (executeRobotMove_moving direction fzero
              (Json.as_int (Json.cmd_speed command)) w 0 eq_refl Hmov)
    as (lf & lb & rf & rb & line & E).
  rewrite E. cbn [lift]. eexists. split; [reflexivity|].
  do 3 (split; [reflexivity|]).
  split; [intros ->; reflexivity|]. split; [reflexivity|].
  intros nows. apply pollAt_void. right. reflexivity.
Qed.

Lemma move_without_duration_runs_untimed_witness :
  exists w',
    handleRobotControlMessage 0
      {| Json.doc_type := Some "robot_control";
         Json.doc_command :=
           Some (Json.mkCommand (Some "move") (Some "backward") None (Some 60) []) |}
      initialWorld = Finished w'
    /\ isMoving (robotStatus w') = true
    /\ moveDuration (robotStatus w') = 0.
Proof.
  destruct (move_without_duration_runs_untimed 0
              {| Json.doc_type := Some "robot_control";
                 Json.doc_command :=
                   Some (Json.mkCommand (Some "move") (Some "backward") None (Some 60) []) |}
              (Json.mkCommand (Some "move") (Some "backward") None (Some 60) [])
              initialWorld "backward" eq_refl eq_refl eq_refl eq_refl eq_refl)
    as (w' & E & Hm & _ & _ & _ & Hd & _).
  exists w'. split; [exact E|]. split; [exact Hm | exact Hd].
Defined.

(** A "move" command with direction "stop" and no [duration] member always
    stops the robot, whatever it was doing and whatever the other members:
    all four pins are driven low, both duties set to 0, and the status is the
    stopped one. *)
Theorem bare_stop_command_stops
    (fuel : nat) (doc : Json.Document) (command : Json.Command) (w : World) :
  Json.doc_command doc = Some command ->
  Json.cmd_action command = Some "move" ->
  Json.cmd_direction command = Some "stop" ->
  Json.cmd_duration command = None ->
  exists w',
    handleRobotControlMessage fuel doc w = Finished w'
    /\ stopped (robotStatus w')
    /\ outputs w' = outputs w ++ motorSignals false false false false 0
    /\ forall nows, pollAt nows w' = atTime (last nows (clock w')) w'.
Proof.
  intros Hc Ha Hdir Hdur. unfold handleRobotControlMessage.
  rewrite Hc, Ha, Hdir, Hdur. cbn [Json.as_String Json.as_float].
  change (String.eqb "move" "move") with true. cbv iota.
  rewrite (executeRobotMove_stop "stop" fzero _ w 0 eq_refl eq_refl).
  cbn [lift]. eexists. split; [reflexivity|].
  split; [rewrite stopRobot_closed; unfold stopped; simpl; repeat split|].
  split; [rewrite stopRobot_closed; reflexivity|].
  intros nows. apply pollAt_void. left. rewrite stopRobot_closed. reflexivity.
Qed.

Lemma bare_stop_command_stops_witness :
  exists w',
    handleRobotControlMessage 0
      {| Json.doc_type := Some "robot_control";
         Json.doc_command :=
           Some (Json.mkCommand (Some "move") (Some "stop") None None []) |}
      (afterMove "right" (float_of_int 5) 90 initialWorld) = Finished w'
    /\ stopped (robotStatus w').
Proof.
  destruct (bare_stop_command_stops 0
              {| Json.doc_type := Some "robot_control";
                 Json.doc_command :=
                   Some (Json.mkCommand (Some "move") (Some "stop") None None []) |}
              (Json.mkCommand (Some "move") (Some "stop") None None [])
              (afterMove "right" (float_of_int 5) 90 initialWorld)
              eq_refl eq_refl eq_refl eq_refl)
    as (w' & E & Hs & _).
  exists w'. split; [exact E | exact Hs].
Defined.

(** ** Durations in whole seconds *)

Lemma wholeSecondsExactFrom_sound count : forall first n,
  wholeSecondsExactFrom count first = true ->
  first <= n < first + Z.of_nat count ->
  duration_ms (float_of_int n) = Some (1000 * n).
Proof.
  induction count as [|count IH]; intros first n H Hn.
  - simpl in Hn. lia.
  - cbn [wholeSecondsExactFrom] in H. apply andb_prop in H. destruct H as [H0 Hrest].
    destruct (Z.eq_dec n first) as [-> | Hne].
    + destruct (duration_ms (float_of_int first)) as [ms|]; [|discriminate].
      apply Z.eqb_eq in H0. rewrite H0. reflexivity.
    + apply (IH (first + 1) n Hrest). lia.
Qed.

(** A duration of a whole number of seconds, up to 134217 s (some 37 hours),
    is stored as exactly a thousand times as many milliseconds: the [float]
    product is exact there.  Beyond that the product needs more than 24 bits
    and is rounded; 134219 s is stored as 134219008 ms. *)
Theorem whole_seconds_are_stored_exactly (n : Z) :
  0 <= n <= 134217 ->
  duration_ms (float_of_int n) = Some (1000 * n)
  /\ duration_ms (float_of_int 134219) = Some 134219008.
Proof.
  intros Hn. split.
  - apply (wholeSecondsExactFrom_sound (Z.to_nat 134218) 0 n).
    + vm_compute. reflexivity.
    + rewrite Z2Nat.id; lia.
  - vm_compute. reflexivity.
Qed.

Lemma whole_seconds_are_stored_exactly_witness :
  duration_ms (float_of_int 3600) = Some (1000 * 3600).
Proof.
  apply (proj1 (whole_seconds_are_stored_exactly 3600 ltac:(lia))).
Defined.

(** ** Single move commands do not block *)

(** A "move" command whose duration has a defined millisecond count returns
    at once: no time passes in the handler, the signals of the direction
    are written, and the timer fields hold the clock reading and the count.
    The move is then supervised by the polls of the main loop. *)
Theorem move_command_returns_at_once
    (fuel : nat) (doc : Json.Document) (command : Json.Command) (w : World) (ms : Z) :
  Json.doc_command doc = Some command ->
  Json.cmd_action command = Some "move" ->
  duration_ms (Json.as_float (Json.cmd_duration command)) = Some ms ->
  exists w',
    handleRobotControlMessage fuel doc w = Finished w'
    /\ clock w' = clock w
    /\ outputs w' =
         outputs w ++ directionSignals (Json.as_int (Json.cmd_speed command))
                        (Json.as_String (Json.cmd_direction command))
    /\ moveStartTime (robotStatus w') = millis w
    /\ moveDuration (robotStatus w') = ms
    /\ isMoving (robotStatus w') =
         negb (String.eqb (Json.as_String (Json.cmd_direction command)) "stop").
Proof.
  intros Hc Ha Hms. unfold handleRobotControlMessage.
  rewrite Hc, Ha. cbn [Json.as_String].
  change (String.eqb "move" "move") with true. cbv iota.
  destruct (executeRobotMove_outputs
              (Json.as_String (Json.cmd_direction command))
              (Json.as_float (Json.cmd_duration command))
              (Json.as_int (Json.cmd_speed command)) w ms Hms)
    as (w' & E & Ho & Hclk & Hm & Hs & Hd).
  change (match Json.cmd_direction command with
          | Some s => s | None => "null" end)
    with (Json.as_String (Json.cmd_direction command)).
  rewrite E. exists w'. cbn [lift]. repeat split; assumption.
Qed.

Lemma move_command_returns_at_once_witness :
  exists w',
    handleRobotControlMessage 0
      {| Json.doc_type := Some "robot_control";
         Json.doc_command :=
           Some (Json.mkCommand (Some "move") (Some "forward")
                   (Some (float_of_int 2)) (Some 60) []) |}
      (atTime 7000 initialWorld) = Finished w'
    /\ clock w' = 7000
    /\ outputs w' = motorSignals true false true false 153
    /\ moveStartTime (robotStatus w') = 7000
    /\ moveDuration (robotStatus w') = 2000.
Proof.
  destruct (move_command_returns_at_once 0
              {| Json.doc_type := Some "robot_control";
                 Json.doc_command :=
                   Some (Json.mkCommand (Some "move") (Some "forward")
                           (Some (float_of_int 2)) (Some 60) []) |}
              (Json.mkCommand (Some "move") (Some "forward")
                 (Some (float_of_int 2)) (Some 60) [])
              (atTime 7000 initialWorld) 2000 eq_refl eq_refl eq_refl)
    as (w' & E & Hclk & Ho & Hs & Hd & _).
  exists w'. split; [exact E|]. split; [exact Hclk|]. split; [exact Ho|].
  split; [exact Hs | exact Hd].
Defined.

(** Two polls in a row, 2.5 s after a forward move of 2 s was started. *)
Lemma poll_only_switches_off_witness :
  checkRobotMovement (checkRobotMovement
    (atTime 2500 (afterMove "forward" (float_of_int 2) 50 initialWorld))) =
  checkRobotMovement (atTime 2500 (afterMove "forward" (float_of_int 2) 50 initialWorld)).
Proof.
  exact (proj2 (proj2 (poll_only_switches_off
    (atTime 2500 (afterMove "forward" (float_of_int 2) 50 initialWorld))))).
Defined.
